(** * Transaction input signing (script/sign.cpp)

    A shallow embedding of the input satisfier of [src/script/sign.cpp]:
    [SignStep], [PushAll], [ProduceSignature], the signature extractor
    [DataFromTransaction] and [SignatureData::MergeSignatureData].

    - Byte vectors ([std::vector<uint8_t>], [CScript]) are [list byte].
    - [std::map] is a [gmap]; [emplace] and range [insert] never overwrite.
    - Output parameters become results; the [SignatureData &] that is
      mutated in place is threaded explicitly.
    - Reading a vector out of range (undefined behaviour in C++) and a
      failed [assert] make the enclosing function return [None].
    - The collaborators that live in other files (the template solver,
      the script interpreter, hashing, key types) are the fields of the
      class [Collaborators]. *)

From Stdlib Require Import Strings.Byte.
From stdpp Require Import base option list sorting gmap fin_maps.

Abbreviation valtype := (list byte).
Abbreviation CScript := (list byte).

(** ** Script interpreter interface *)

(** [txnouttype], script/standard.h: the template kinds tested by
    [SignStep]. *)
Inductive txnouttype : Set :=
  | TX_NONSTANDARD
  | TX_PUBKEY
  | TX_PUBKEYHASH
  | TX_SCRIPTHASH
  | TX_MULTISIG
  | TX_NULL_DATA.

#[global] Instance txnouttype_eq_dec : EqDecision txnouttype.
Proof. solve_decision. Defined.

Module Checker.
Section Checker.
(** [Q] stands for the calls of a [BaseSignatureChecker] other than
    [CheckSig] (its remaining virtual methods, script/interpreter.h). *)
Context {Q : Type}.

(** A checker without state of its own: [const BaseSignatureChecker &]. *)
Record BaseSignatureChecker : Type := {
  CheckSig : valtype → valtype → CScript → Z → bool;
  CheckOther : Q → bool
}.

(** One run of the interpreter on fixed scripts and flags: it ends with a
    verdict, or calls the checker and goes on with the answer. *)
Inductive Interp : Type :=
  | Verdict (b : bool)
  | CallCheckSig (sig pubkey : valtype) (scriptCode : CScript) (flags : Z)
      (k : bool → Interp)
  | CallOther (q : Q) (k : bool → Interp).

(** The run against a checker whose [CheckSig] may update a state [S]. *)
Fixpoint run {S : Type}
    (checkSig : valtype → valtype → CScript → Z → S → bool * S)
    (checkOther : Q → bool) (t : Interp) (s : S) : bool * S :=
  match t with
  | Verdict b => (b, s)
  | CallCheckSig sig pubkey scriptCode flags k =>
      let '(b, s') := checkSig sig pubkey scriptCode flags s in
      run checkSig checkOther (k b) s'
  | CallOther q k => run checkSig checkOther (k (checkOther q)) s
  end.

Definition run_pure (checker : BaseSignatureChecker) (t : Interp) : bool :=
  fst (run (λ sig pubkey scriptCode flags (_ : unit),
              (CheckSig checker sig pubkey scriptCode flags, tt))
           (CheckOther checker) t tt).
End Checker.
Global Arguments BaseSignatureChecker : clear implicits.
Global Arguments Interp : clear implicits.
End Checker.
Export Checker.

(** ** Collaborators outside sign.cpp *)

Class Collaborators : Type := {
  (** [uint160]; [CKeyID] and [CScriptID] derive from it. *)
  uint160 : Type;
  uint160_eq_dec :: EqDecision uint160;
  uint160_countable :: Countable uint160;
  CPubKey : Type;
  KeyOriginInfo : Type;
  CKey : Type;
  Amount : Type;
  opcodetype : Type;
  CheckerQuery : Type;
  CTxIn : Type;
  CMutableTransaction : Type;
  (** [uint160(vch)] *)
  uint160_of_vector : valtype → uint160;
  (** [CPubKey(vch)], [CPubKey::GetID], [ToByteVector(pubkey)] *)
  CPubKey_of_vector : valtype → CPubKey;
  GetID : CPubKey → uint160;
  ToByteVector : CPubKey → valtype;
  (** [CScriptID(script)] *)
  CScriptID_of_script : CScript → uint160;
  (** [Solver(scriptPubKey, vSolutionsRet)], script/standard.cpp *)
  Solver : CScript → txnouttype * list valtype;
  (** [VerifyScript] and [EvalScript], script/interpreter.cpp *)
  VerifyScript_interp : CScript → CScript → Z → Interp CheckerQuery;
  EvalScript :
    list valtype → CScript → Z → BaseSignatureChecker CheckerQuery →
    bool * list valtype;
  BaseSignatureChecker_default : BaseSignatureChecker CheckerQuery;
  (** [CScript::IsPushOnly] and the three [operator<<] used by [PushAll] *)
  IsPushOnly : CScript → bool;
  OP_0 : opcodetype;
  EncodeOP_N : byte → opcodetype;
  push_opcode : CScript → opcodetype → CScript;
  push_data : CScript → valtype → CScript;
  (** flag bundles, policy/policy.h and script/script_flags.h *)
  STANDARD_SCRIPT_VERIFY_FLAGS : Z;
  SCRIPT_VERIFY_NONE : Z;
  (** [tx.vin], [txin.scriptSig], [MutableTransactionSignatureChecker] *)
  vin : CMutableTransaction → list CTxIn;
  txin_scriptSig : CTxIn → CScript;
  MutableTransactionSignatureChecker :
    CMutableTransaction → nat → Amount → BaseSignatureChecker CheckerQuery
}.

Section Sign.
Context {W : Collaborators}.

Abbreviation CKeyID := uint160.
Abbreviation CScriptID := uint160.
Abbreviation SigPair := (CPubKey * valtype)%type.

(** [VerifyScript(scriptSig, scriptPubKey, flags, checker)] with a checker
    that has no state. *)
Definition VerifyScript (scriptSig scriptPubKey : CScript) (flags : Z)
    (checker : BaseSignatureChecker CheckerQuery) : bool :=
  run_pure checker (VerifyScript_interp scriptSig scriptPubKey flags).

(** ** Providers and creators *)

Record SigningProvider : Type := {
  provider_GetCScript : CScriptID → option CScript;
  provider_GetPubKey : CKeyID → option CPubKey;
  provider_GetKey : CKeyID → option CKey;
  provider_GetKeyOrigin : CKeyID → option KeyOriginInfo
}.

Record BaseSignatureCreator : Type := {
  creator_Checker : BaseSignatureChecker CheckerQuery;
  creator_CreateSig : SigningProvider → CKeyID → CScript → option valtype
}.

(** [DUMMY_SIGNING_PROVIDER = SigningProvider()]: answers nothing. *)
Definition DUMMY_SIGNING_PROVIDER : SigningProvider :=
  {| provider_GetCScript := λ _, None;
     provider_GetPubKey := λ _, None;
     provider_GetKey := λ _, None;
     provider_GetKeyOrigin := λ _, None |}.

(** [HidingSigningProvider] *)
Definition HidingSigningProvider (m_provider : SigningProvider)
    (m_hide_secret m_hide_origin : bool) : SigningProvider :=
  {| provider_GetCScript := provider_GetCScript m_provider;
     provider_GetPubKey := provider_GetPubKey m_provider;
     provider_GetKey := λ keyid,
       if m_hide_secret then None else provider_GetKey m_provider keyid;
     provider_GetKeyOrigin := λ keyid,
       if m_hide_origin then None
       else provider_GetKeyOrigin m_provider keyid |}.

(** ** SignatureData *)

(** Modelled from the spec: the declaration of [struct SignatureData] is in
    script/sign.h, which is not among the sources.  The fields are the ones
    sign.cpp reads and writes, typed as in section 3 of the specification:
    [missing_redeem_script] is an optional script hash, a
    default-constructed instance is empty and not complete. *)
Record SignatureData : Type := {
  complete : bool;
  scriptSig : CScript;
  redeem_script : CScript;
  signatures : gmap CKeyID SigPair;
  misc_pubkeys : gmap CKeyID (CPubKey * KeyOriginInfo);
  missing_pubkeys : list CKeyID;
  missing_sigs : list CKeyID;
  (** [None] is the default-constructed (unset) identifier. *)
  missing_redeem_script : option uint160
}.

(** [SignatureData data;] *)
Definition SignatureData_empty : SignatureData :=
  {| complete := false; scriptSig := []; redeem_script := [];
     signatures := ∅; misc_pubkeys := ∅;
     missing_pubkeys := []; missing_sigs := [];
     missing_redeem_script := None |}.

Definition set_complete (b : bool) (d : SignatureData) : SignatureData :=
  {| complete := b; scriptSig := scriptSig d;
     redeem_script := redeem_script d; signatures := signatures d;
     misc_pubkeys := misc_pubkeys d; missing_pubkeys := missing_pubkeys d;
     missing_sigs := missing_sigs d;
     missing_redeem_script := missing_redeem_script d |}.

Definition set_scriptSig (s : CScript) (d : SignatureData) : SignatureData :=
  {| complete := complete d; scriptSig := s;
     redeem_script := redeem_script d; signatures := signatures d;
     misc_pubkeys := misc_pubkeys d; missing_pubkeys := missing_pubkeys d;
     missing_sigs := missing_sigs d;
     missing_redeem_script := missing_redeem_script d |}.

Definition set_redeem_script (s : CScript) (d : SignatureData)
    : SignatureData :=
  {| complete := complete d; scriptSig := scriptSig d;
     redeem_script := s; signatures := signatures d;
     misc_pubkeys := misc_pubkeys d; missing_pubkeys := missing_pubkeys d;
     missing_sigs := missing_sigs d;
     missing_redeem_script := missing_redeem_script d |}.

Definition set_signatures (m : gmap CKeyID SigPair) (d : SignatureData)
    : SignatureData :=
  {| complete := complete d; scriptSig := scriptSig d;
     redeem_script := redeem_script d; signatures := m;
     misc_pubkeys := misc_pubkeys d; missing_pubkeys := missing_pubkeys d;
     missing_sigs := missing_sigs d;
     missing_redeem_script := missing_redeem_script d |}.

Definition set_misc_pubkeys (m : gmap CKeyID (CPubKey * KeyOriginInfo))
    (d : SignatureData) : SignatureData :=
  {| complete := complete d; scriptSig := scriptSig d;
     redeem_script := redeem_script d; signatures := signatures d;
     misc_pubkeys := m; missing_pubkeys := missing_pubkeys d;
     missing_sigs := missing_sigs d;
     missing_redeem_script := missing_redeem_script d |}.

Definition set_missing_pubkeys (l : list CKeyID) (d : SignatureData)
    : SignatureData :=
  {| complete := complete d; scriptSig := scriptSig d;
     redeem_script := redeem_script d; signatures := signatures d;
     misc_pubkeys := misc_pubkeys d; missing_pubkeys := l;
     missing_sigs := missing_sigs d;
     missing_redeem_script := missing_redeem_script d |}.

Definition set_missing_sigs (l : list CKeyID) (d : SignatureData)
    : SignatureData :=
  {| complete := complete d; scriptSig := scriptSig d;
     redeem_script := redeem_script d; signatures := signatures d;
     misc_pubkeys := misc_pubkeys d; missing_pubkeys := missing_pubkeys d;
     missing_sigs := l;
     missing_redeem_script := missing_redeem_script d |}.

Definition set_missing_redeem_script (h : option uint160)
    (d : SignatureData) : SignatureData :=
  {| complete := complete d; scriptSig := scriptSig d;
     redeem_script := redeem_script d; signatures := signatures d;
     misc_pubkeys := misc_pubkeys d; missing_pubkeys := missing_pubkeys d;
     missing_sigs := missing_sigs d;
     missing_redeem_script := h |}.

(** [std::map::emplace]: the entry is added only when the key is free. *)
Definition emplace {V : Type} (k : CKeyID) (v : V) (m : gmap CKeyID V)
    : gmap CKeyID V :=
  match m !! k with
  | Some _ => m
  | None => <[k := v]> m
  end.

(** [std::map::insert(first, last)]: [emplace] for each entry of [src]. *)
Definition insert_range {V : Type} (src m : gmap CKeyID V) : gmap CKeyID V :=
  map_fold (λ k v acc, emplace k v acc) m src.

(** ** Lookups that also consult the SignatureData *)

(** [GetCScript(provider, sigdata, scriptid, script)] *)
Definition GetCScript (provider : SigningProvider) (sigdata : SignatureData)
    (scriptid : CScriptID) : option CScript :=
  match provider_GetCScript provider scriptid with
  | Some script => Some script
  | None =>
      if decide (CScriptID_of_script (redeem_script sigdata) = scriptid)
      then Some (redeem_script sigdata)
      else None
  end.

(** [GetPubKey(provider, sigdata, address, pubkey)] *)
Definition GetPubKey (provider : SigningProvider) (sigdata : SignatureData)
    (address : CKeyID) : option CPubKey * SignatureData :=
  match signatures sigdata !! address with
  | Some it => (Some (fst it), sigdata)
  | None =>
      match misc_pubkeys sigdata !! address with
      | Some pk_it => (Some (fst pk_it), sigdata)
      | None =>
          match provider_GetPubKey provider address with
          | Some pubkey =>
              match provider_GetKeyOrigin provider address with
              | Some info =>
                  (Some pubkey,
                   set_misc_pubkeys
                     (emplace address (pubkey, info) (misc_pubkeys sigdata))
                     sigdata)
              | None => (Some pubkey, sigdata)
              end
          | None => (None, sigdata)
          end
      end
  end.

(** [CreateSig(creator, sigdata, provider, sig_out, pubkey, scriptcode)].
    The [assert(i.second)] after the [emplace] cannot fail: the key was
    looked up and not found (lemma [CreateSig_emplace_fresh]). *)
Definition CreateSig (creator : BaseSignatureCreator)
    (sigdata : SignatureData) (provider : SigningProvider)
    (pubkey : CPubKey) (scriptcode : CScript)
    : option valtype * SignatureData :=
  let keyid := GetID pubkey in
  match signatures sigdata !! keyid with
  | Some it => (Some (snd it), sigdata)
  | None =>
      let sigdata :=
        match provider_GetKeyOrigin provider keyid with
        | Some info =>
            set_misc_pubkeys
              (emplace keyid (pubkey, info) (misc_pubkeys sigdata)) sigdata
        | None => sigdata
        end in
      match creator_CreateSig creator provider keyid scriptcode with
      | Some sig_out =>
          (Some sig_out,
           set_signatures
             (emplace keyid (pubkey, sig_out) (signatures sigdata)) sigdata)
      | None =>
          (None, set_missing_sigs (missing_sigs sigdata ++ [keyid]) sigdata)
      end
  end.

(** ** SignStep *)

(** [vSolutions[1] .. vSolutions[vSolutions.size() - 2]]: the items the
    loop [for (i = 1; i < vSolutions.size() - 1; ++i)] visits. *)
Definition multisig_items (vSolutions : list valtype) : list valtype :=
  take (length vSolutions - 2) (drop 1 vSolutions).

(** The signing loop of the TX_MULTISIG case. *)
Fixpoint multisig_sign (creator : BaseSignatureCreator)
    (provider : SigningProvider) (scriptPubKey : CScript) (required : nat)
    (items : list valtype) (ret : list valtype) (sigdata : SignatureData)
    : list valtype * SignatureData :=
  match items with
  | [] => (ret, sigdata)
  | vch :: items' =>
      if decide (length ret < required + 1) then
        match CreateSig creator sigdata provider (CPubKey_of_vector vch)
                scriptPubKey with
        | (Some sig, sigdata') =>
            multisig_sign creator provider scriptPubKey required items'
              (ret ++ [sig]) sigdata'
        | (None, sigdata') =>
            multisig_sign creator provider scriptPubKey required items'
              ret sigdata'
        end
      else
        multisig_sign creator provider scriptPubKey required items'
          ret sigdata
  end.

(** [for (size_t i = 0; i + ret.size() < required + 1; ++i)
       ret.push_back(valtype());]
    Both [i] and [ret.size()] grow in an iteration.  [fuel] bounds the
    number of iterations; [required + 1] is always enough
    (lemma [multisig_pad_exits]). *)
Fixpoint multisig_pad (fuel : nat) (required : nat) (i : nat)
    (ret : list valtype) : list valtype :=
  match fuel with
  | 0 => ret
  | S fuel' =>
      if decide (i + length ret < required + 1)
      then multisig_pad fuel' required (S i) (ret ++ [[]])
      else ret
  end.

(** [SignStep(provider, creator, scriptPubKey, ret, whichTypeRet, sigdata)]
    returns [(result, ret, whichTypeRet, sigdata)]. *)
Definition SignStep (provider : SigningProvider)
    (creator : BaseSignatureCreator) (scriptPubKey : CScript)
    (sigdata : SignatureData)
    : option (bool * list valtype * txnouttype * SignatureData) :=
  let '(whichTypeRet, vSolutions) := Solver scriptPubKey in
  match whichTypeRet with
  | TX_NONSTANDARD | TX_NULL_DATA =>
      Some (false, [], whichTypeRet, sigdata)
  | TX_PUBKEY =>
      v0 ← vSolutions !! 0%nat;
      match CreateSig creator sigdata provider (CPubKey_of_vector v0)
              scriptPubKey with
      | (None, sigdata) => Some (false, [], whichTypeRet, sigdata)
      | (Some sig, sigdata) => Some (true, [sig], whichTypeRet, sigdata)
      end
  | TX_PUBKEYHASH =>
      v0 ← vSolutions !! 0%nat;
      let keyID := uint160_of_vector v0 in
      match GetPubKey provider sigdata keyID with
      | (None, sigdata) =>
          Some (false, [], whichTypeRet,
                set_missing_pubkeys (missing_pubkeys sigdata ++ [keyID])
                  sigdata)
      | (Some pubkey, sigdata) =>
          match CreateSig creator sigdata provider pubkey scriptPubKey with
          | (None, sigdata) => Some (false, [], whichTypeRet, sigdata)
          | (Some sig, sigdata) =>
              Some (true, [sig; ToByteVector pubkey], whichTypeRet, sigdata)
          end
      end
  | TX_SCRIPTHASH =>
      v0 ← vSolutions !! 0%nat;
      let h160 := uint160_of_vector v0 in
      match GetCScript provider sigdata h160 with
      | Some scriptRet => Some (true, [scriptRet], whichTypeRet, sigdata)
      | None =>
          Some (false, [], whichTypeRet,
                set_missing_redeem_script (Some h160) sigdata)
      end
  | TX_MULTISIG =>
      front ← head vSolutions;
      front0 ← front !! 0%nat;
      let required := Byte.to_nat front0 in
      let '(ret, sigdata) :=
        multisig_sign creator provider scriptPubKey required
          (multisig_items vSolutions) [[]] sigdata in
      let ok := bool_decide (length ret = required + 1) in
      Some (ok, multisig_pad (required + 1) required 0 ret, whichTypeRet,
            sigdata)
  end.

(** ** PushAll and ProduceSignature *)

Definition PushAll_step (result : CScript) (v : valtype) : CScript :=
  match v with
  | [] => push_opcode result OP_0
  | [v0] =>
      if decide (1 ≤ Byte.to_nat v0 ≤ 16)
      then push_opcode result (EncodeOP_N v0)
      else push_data result v
  | _ => push_data result v
  end.

Definition PushAll (values : list valtype) : CScript :=
  foldl PushAll_step [] values.

(** Lines 205-224 of [ProduceSignature]: the resolution, one [SignStep]
    and for TX_SCRIPTHASH one more on the redeem script.  Returns
    [(solved, result, sigdata)]. *)
Definition ProduceSignature_solve (provider : SigningProvider)
    (creator : BaseSignatureCreator) (fromPubKey : CScript)
    (sigdata : SignatureData)
    : option (bool * list valtype * SignatureData) :=
  '(solved, result, whichType, sigdata) ←
    SignStep provider creator fromPubKey sigdata;
  if solved && bool_decide (whichType = TX_SCRIPTHASH) then
    subscript ← result !! 0%nat;
    let sigdata := set_redeem_script subscript sigdata in
    '(solved', result, whichType, sigdata) ←
      SignStep provider creator subscript sigdata;
    Some (solved' && bool_decide (whichType ≠ TX_SCRIPTHASH),
          result ++ [subscript], sigdata)
  else Some (solved, result, sigdata).

(** [ProduceSignature(provider, creator, fromPubKey, sigdata)] returns the
    result and the updated [sigdata]. *)
Definition ProduceSignature (provider : SigningProvider)
    (creator : BaseSignatureCreator) (fromPubKey : CScript)
    (sigdata : SignatureData) : option (bool * SignatureData) :=
  if complete sigdata then Some (true, sigdata)
  else
    '(solved, result, sigdata) ←
      ProduceSignature_solve provider creator fromPubKey sigdata;
    let sigdata := set_scriptSig (PushAll result) sigdata in
    let ok :=
      solved && VerifyScript (scriptSig sigdata) fromPubKey
                  STANDARD_SCRIPT_VERIFY_FLAGS (creator_Checker creator) in
    Some (ok, set_complete ok sigdata).

(** ** Signature extraction *)

(** [SignatureExtractorChecker::CheckSig]: the wrapped [checker] decides;
    an accepted signature is recorded in [sigdata.signatures]. *)
Definition SignatureExtractorChecker_CheckSig
    (checker : BaseSignatureChecker CheckerQuery)
    (scriptSig_ vchPubKey : valtype) (scriptCode : CScript) (flags : Z)
    (sigdata : SignatureData) : bool * SignatureData :=
  if CheckSig checker scriptSig_ vchPubKey scriptCode flags then
    let pubkey := CPubKey_of_vector vchPubKey in
    (true,
     set_signatures
       (emplace (GetID pubkey) (pubkey, scriptSig_) (signatures sigdata))
       sigdata)
  else (false, sigdata).

(** [VerifyScript] run with a [SignatureExtractorChecker(data, checker)].
    The class overrides [CheckSig] only; its other methods are those of
    the base class. *)
Definition VerifyScript_extractor (scriptSig_ scriptPubKey : CScript)
    (flags : Z) (checker : BaseSignatureChecker CheckerQuery)
    (data : SignatureData) : bool * SignatureData :=
  run (SignatureExtractorChecker_CheckSig checker)
      (CheckOther BaseSignatureChecker_default)
      (VerifyScript_interp scriptSig_ scriptPubKey flags) data.

(** [Stacks stack(data)]: the field [stack.script]. *)
Definition Stacks (data : SignatureData) : list valtype :=
  if IsPushOnly (scriptSig data) then
    snd (EvalScript [] (scriptSig data) SCRIPT_VERIFY_NONE
           BaseSignatureChecker_default)
  else [].

Record CTxOut : Type := {
  nValue : Amount;
  scriptPubKey : CScript
}.

(** Lines 294-310 of [DataFromTransaction] ("Get scripts"): returns
    [(script_type, solutions, next_script, stack.script, data)]. *)
Definition DataFromTransaction_scripts (txout : CTxOut)
    (stack : list valtype) (data : SignatureData)
    : txnouttype * list valtype * CScript * list valtype * SignatureData :=
  let '(script_type, solutions) := Solver (scriptPubKey txout) in
  let next_script := scriptPubKey txout in
  match script_type, last stack with
  | TX_SCRIPTHASH, Some ((_ :: _) as back) =>
      let redeem_script := back in
      let data := set_redeem_script redeem_script data in
      let next_script := redeem_script in
      let '(script_type, solutions) := Solver next_script in
      (script_type, solutions, next_script, removelast stack, data)
  | _, _ => (script_type, solutions, next_script, stack, data)
  end.

(** The inner loop [for (i = last_success_key; i < num_pubkeys; ++i)] for
    one [sig]: [pubkeys] holds [solutions[i + 1]] and the items after it.
    Returns the new [last_success_key] and [data]. *)
Fixpoint match_pubkeys (checker : BaseSignatureChecker CheckerQuery)
    (sig : valtype) (next_script : CScript) (i : nat)
    (pubkeys : list valtype) (last_success_key : nat)
    (data : SignatureData) : nat * SignatureData :=
  match pubkeys with
  | [] => (last_success_key, data)
  | pubkey :: pubkeys' =>
      match signatures data !! GetID (CPubKey_of_vector pubkey) with
      | Some _ => (S i, data)
      | None =>
          match SignatureExtractorChecker_CheckSig checker sig pubkey
                  next_script STANDARD_SCRIPT_VERIFY_FLAGS data with
          | (true, data') => (S i, data')
          | (false, data') =>
              match_pubkeys checker sig next_script (S i) pubkeys'
                last_success_key data'
          end
      end
  end.

(** [solutions[1] .. solutions[num_pubkeys]], [num_pubkeys =
    solutions.size() - 2]. *)
Definition candidate_pubkeys (solutions : list valtype) : list valtype :=
  take (length solutions - 2) (drop 1 solutions).

(** The outer loop [for (const valtype &sig : stack.script)]. *)
Fixpoint match_sigs (checker : BaseSignatureChecker CheckerQuery)
    (next_script : CScript) (pubkeys : list valtype)
    (stack : list valtype) (last_success_key : nat) (data : SignatureData)
    : nat * SignatureData :=
  match stack with
  | [] => (last_success_key, data)
  | sig :: stack' =>
      let '(last_success_key, data) :=
        match_pubkeys checker sig next_script last_success_key
          (drop last_success_key pubkeys) last_success_key data in
      match_sigs checker next_script pubkeys stack' last_success_key data
  end.

(** [DataFromTransaction(tx, nIn, txout)] *)
Definition DataFromTransaction (tx : CMutableTransaction) (nIn : nat)
    (txout : CTxOut) : option SignatureData :=
  (* assert(tx.vin.size() > nIn) *)
  txin ← vin tx !! nIn;
  let data := set_scriptSig (txin_scriptSig txin) SignatureData_empty in
  let stack := Stacks data in
  let tx_checker := MutableTransactionSignatureChecker tx nIn (nValue txout) in
  let '(verified, data) :=
    VerifyScript_extractor (scriptSig data) (scriptPubKey txout)
      STANDARD_SCRIPT_VERIFY_FLAGS tx_checker data in
  if verified then Some (set_complete true data)
  else
    let '(script_type, solutions, next_script, stack, data) :=
      DataFromTransaction_scripts txout stack data in
    if bool_decide (script_type = TX_MULTISIG) &&
       negb (bool_decide (stack = []))
    then
      (* assert(solutions.size() > 1) *)
      if decide (1 < length solutions) then
        Some (snd (match_sigs tx_checker next_script
                     (candidate_pubkeys solutions) stack 0 data))
      else None
    else Some data.

(** ** Merge *)

(** [SignatureData::MergeSignatureData(sigdata)] on [*this]. *)
Definition MergeSignatureData (this sigdata : SignatureData)
    : SignatureData :=
  if complete this then this
  else if complete sigdata then sigdata
  else
    let this :=
      match redeem_script this, redeem_script sigdata with
      | [], _ :: _ => set_redeem_script (redeem_script sigdata) this
      | _, _ => this
      end in
    set_signatures (insert_range (signatures sigdata) (signatures this)) this.

(** ** Predicates used in the statements *)

(** What [SignStep] and [DataFromTransaction] read from [vSolutions]
    exists: item 0 for the one-item kinds; for TX_MULTISIG the first and the
    last item, the first one with a byte in it. *)
Definition Solver_ok (script : CScript) : bool :=
  match Solver script with
  | (TX_NONSTANDARD, _) | (TX_NULL_DATA, _) => true
  | (TX_PUBKEY, vSolutions) | (TX_PUBKEYHASH, vSolutions)
  | (TX_SCRIPTHASH, vSolutions) => bool_decide (0 < length vSolutions)
  | (TX_MULTISIG, vSolutions) =>
      match vSolutions with
      | (_ :: _) :: _ :: _ => true
      | _ => false
      end
  end.

Definition Solver_wf : Prop := ∀ script, Solver_ok script = true.

(** The states a caller can reach from a fresh [SignatureData]. *)
Inductive reachable : SignatureData → Prop :=
  | reachable_empty : reachable SignatureData_empty
  | reachable_ProduceSignature provider creator fromPubKey d ret d' :
      reachable d →
      ProduceSignature provider creator fromPubKey d = Some (ret, d') →
      reachable d'
  | reachable_Merge d1 d2 :
      reachable d1 → reachable d2 → reachable (MergeSignatureData d1 d2).

(** The same with [ProduceSignature] only, one provider and one creator. *)
Inductive reachable_with (provider : SigningProvider)
    (creator : BaseSignatureCreator) : SignatureData → Prop :=
  | reachable_with_empty : reachable_with provider creator SignatureData_empty
  | reachable_with_step fromPubKey d ret d' :
      reachable_with provider creator d →
      ProduceSignature provider creator fromPubKey d = Some (ret, d') →
      reachable_with provider creator d'.

(** No key id is both signed for and reported as missing a signature. *)
Definition sigs_disjoint (d : SignatureData) : Prop :=
  ∀ keyid, is_Some (signatures d !! keyid) → keyid ∉ missing_sigs d.

(** Whether the creator can sign for a key does not depend on the script. *)
Definition creator_by_key (provider : SigningProvider)
    (creator : BaseSignatureCreator) : Prop :=
  ∀ keyid code code',
    creator_CreateSig creator provider keyid code = None →
    creator_CreateSig creator provider keyid code' = None.

(** The fields a signing step never writes. *)
Definition same_frame (d d' : SignatureData) : Prop :=
  complete d' = complete d ∧ scriptSig d' = scriptSig d ∧
  redeem_script d' = redeem_script d.

(** [d'] is [d] but for its [signatures]. *)
Definition signatures_only (d d' : SignatureData) : Prop :=
  d' = set_signatures (signatures d') d.

(** Every key id reported in [missing_sigs] has no signature on record and
    is one the creator cannot sign for. *)
Definition missing_unsignable (provider : SigningProvider)
    (creator : BaseSignatureCreator) (d : SignatureData) : Prop :=
  ∀ keyid, keyid ∈ missing_sigs d →
    signatures d !! keyid = None ∧
    ∀ code, creator_CreateSig creator provider keyid code = None.

(** *** The cursor match of the extraction, as described

    For one candidate signature: the first pubkey at or after the cursor
    that already has a signature on record or for which the signature
    checks; the cursor then moves past it, and the signature goes on
    record unless the key had one. *)

Definition pubkey_matches (checker : BaseSignatureChecker CheckerQuery)
    (sig : valtype) (next_script : CScript) (data : SignatureData)
    (pubkey : valtype) : bool :=
  bool_decide (is_Some (signatures data !! GetID (CPubKey_of_vector pubkey)))
  || CheckSig checker sig pubkey next_script STANDARD_SCRIPT_VERIFY_FLAGS.

Definition first_match (checker : BaseSignatureChecker CheckerQuery)
    (sig : valtype) (next_script : CScript) (pubkeys : list valtype)
    (cursor : nat) (data : SignatureData) : option (nat * valtype) :=
  prod_map (λ j, cursor + j) id <$>
    list_find (λ pubkey,
                 pubkey_matches checker sig next_script data pubkey = true)
              (drop cursor pubkeys).

Definition advance_cursor (checker : BaseSignatureChecker CheckerQuery)
    (sig : valtype) (next_script : CScript) (pubkeys : list valtype)
    (cursor : nat) (data : SignatureData) : nat * SignatureData :=
  match first_match checker sig next_script pubkeys cursor data with
  | Some (i, pubkey) =>
      (S i,
       set_signatures
         (emplace (GetID (CPubKey_of_vector pubkey))
            (CPubKey_of_vector pubkey, sig) (signatures data)) data)
  | None => (cursor, data)
  end.

(** One match of the outer loop: the stack item, the index and bytes of
    the pubkey, and whether the key had no signature on record before. *)
Record match_event : Type := {
  event_sig : valtype;
  event_index : nat;
  event_pubkey : valtype;
  event_fresh : bool
}.

(** The matches of a run of the outer loop, in stack order.  The states
    are those of [match_pubkeys]. *)
Fixpoint match_sigs_log (checker : BaseSignatureChecker CheckerQuery)
    (next_script : CScript) (pubkeys : list valtype)
    (stack : list valtype) (last_success_key : nat) (data : SignatureData)
    : list match_event :=
  match stack with
  | [] => []
  | sig :: stack' =>
      let hit :=
        first_match checker sig next_script pubkeys last_success_key data in
      let '(last_success_key', data') :=
        match_pubkeys checker sig next_script last_success_key
          (drop last_success_key pubkeys) last_success_key data in
      match hit with
      | Some (i, pubkey) =>
          [{| event_sig := sig; event_index := i; event_pubkey := pubkey;
              event_fresh :=
                bool_decide
                  (signatures data !! GetID (CPubKey_of_vector pubkey)
                     = None) |}]
      | None => []
      end ++
      match_sigs_log checker next_script pubkeys stack' last_success_key'
        data'
  end.

End Sign.

(** ** A small concrete world

    An instance of [Collaborators] on which the model runs: key ids and
    script ids are numbers, the "hash" of a byte vector is the sum of its
    bytes, and scripts use a one-byte tag.  It serves the examples only. *)
Module Toy.

Definition sum_bytes (v : valtype) : N :=
  foldr (λ b acc, (Byte.to_N b + acc)%N) 0%N v.

Definition eqb_bytes (v w : valtype) : bool :=
  bool_decide (Byte.to_N <$> v = Byte.to_N <$> w).

(** Script shapes: [01 pk..] pay to pubkey, [02 h] pay to pubkey hash,
    [03 h] pay to script hash, [04 m k1 .. kn n] multisig with one-byte
    keys, [05 ..] null data. *)
Definition classify (script : CScript) : txnouttype * list valtype :=
  match script with
  | x01 :: pk => (TX_PUBKEY, [pk])
  | x02 :: h => (TX_PUBKEYHASH, [h])
  | x03 :: h => (TX_SCRIPTHASH, [h])
  | x04 :: m :: k :: rest =>
      (TX_MULTISIG, [m] :: [k] :: ((λ k, [k]) <$> rest))
  | x05 :: _ => (TX_NULL_DATA, [])
  | _ => (TX_NONSTANDARD, [])
  end.

(** Pushes: [00] pushes the empty vector, [51] .. [60] push one byte
    1 .. 16, any other byte [n] pushes the [n] bytes that follow. *)
Fixpoint eval_pushes (fuel : nat) (script : CScript) : list valtype :=
  match fuel, script with
  | S fuel', x00 :: rest => [] :: eval_pushes fuel' rest
  | S fuel', n :: rest =>
      if bool_decide (81 ≤ Byte.to_nat n ≤ 96) then
        [default x00 (Byte.of_nat (Byte.to_nat n - 80))]
          :: eval_pushes fuel' rest
      else
        take (Byte.to_nat n) rest
          :: eval_pushes fuel' (drop (Byte.to_nat n) rest)
  | _, _ => []
  end.

(** The multisig check: signatures and keys are walked in step, a key
    that does not fit the current signature is dropped. *)
Fixpoint check_multisig (sigs keys : list valtype) (code : CScript)
    (flags : Z) : Interp Empty_set :=
  match sigs, keys with
  | [], _ => Verdict true
  | _ :: _, [] => Verdict false
  | sig :: sigs', key :: keys' =>
      CallCheckSig sig key code flags
        (λ b, if b then check_multisig sigs' keys' code flags
              else check_multisig sigs keys' code flags)
  end.

(** One template level of the toy interpreter on an evaluated stack. *)
Definition check_template (stack : list valtype) (script : CScript)
    (flags : Z) : Interp Empty_set :=
  match classify script, stack with
  | (TX_PUBKEY, [pk]), [sig] =>
      CallCheckSig sig pk script flags Verdict
  | (TX_PUBKEYHASH, [h]), [sig; pk] =>
      if bool_decide (sum_bytes pk = sum_bytes h)
      then CallCheckSig sig pk script flags Verdict
      else Verdict false
  | (TX_MULTISIG, [m] :: keys), [] :: sigs =>
      if bool_decide (length sigs = Byte.to_nat m)
      then check_multisig sigs (removelast keys) script flags
      else Verdict false
  | _, _ => Verdict false
  end.

Definition verify (scriptSig_ scriptPubKey_ : CScript) (flags : Z)
    : Interp Empty_set :=
  let stack := eval_pushes (length scriptSig_) scriptSig_ in
  match classify scriptPubKey_, last stack with
  | (TX_SCRIPTHASH, [h]), Some redeem =>
      if bool_decide (sum_bytes redeem = sum_bytes h)
      then check_template (removelast stack) redeem flags
      else Verdict false
  | _, _ => check_template stack scriptPubKey_ flags
  end.

(** A signature by key [k] is [k] followed by the byte [aa]. *)
Definition checker : BaseSignatureChecker Empty_set :=
  {| CheckSig := λ sig pubkey _ _, eqb_bytes sig (pubkey ++ [xaa]);
     CheckOther := λ q : Empty_set, match q with end |}.

#[local] Instance world : Collaborators := {|
  uint160 := N;
  CPubKey := valtype;
  KeyOriginInfo := unit;
  CKey := unit;
  Amount := Z;
  opcodetype := byte;
  CheckerQuery := Empty_set;
  CTxIn := CScript;
  CMutableTransaction := list CScript;
  uint160_of_vector := sum_bytes;
  CPubKey_of_vector := id;
  GetID := sum_bytes;
  ToByteVector := id;
  CScriptID_of_script := sum_bytes;
  Solver := classify;
  VerifyScript_interp := verify;
  EvalScript := λ stack script _ _,
    (true, stack ++ eval_pushes (length script) script);
  BaseSignatureChecker_default :=
    {| CheckSig := λ _ _ _ _, false;
       CheckOther := λ q : Empty_set, match q with end |};
  IsPushOnly := λ _, true;
  OP_0 := x00;
  EncodeOP_N := λ n, default x00 (Byte.of_N (80 + Byte.to_N n));
  push_opcode := λ script op, script ++ [op];
  push_data := λ script v,
    script ++ [default x00 (Byte.of_nat (length v))] ++ v;
  STANDARD_SCRIPT_VERIFY_FLAGS := 0;
  SCRIPT_VERIFY_NONE := 0;
  vin := id;
  txin_scriptSig := id;
  MutableTransactionSignatureChecker := λ _ _ _, checker
|}.

(** A provider that knows the listed one-byte keys and scripts, and a
    creator that signs for the keys the provider holds. *)
Definition provider_of (keys : list byte) (scripts : list CScript)
    : SigningProvider :=
  {| provider_GetCScript := λ scriptid,
       snd <$> list_find (λ script, sum_bytes script = scriptid) scripts;
     provider_GetPubKey := λ keyid,
       (λ '(_, k), [k]) <$> list_find (λ k, Byte.to_N k = keyid) keys;
     provider_GetKey := λ keyid,
       if bool_decide (keyid ∈ Byte.to_N <$> keys) then Some tt else None;
     provider_GetKeyOrigin := λ _, None |}.

Definition creator : BaseSignatureCreator :=
  {| creator_Checker := checker;
     creator_CreateSig := λ provider keyid _,
       match provider_GetKey provider keyid, Byte.of_N keyid with
       | Some _, Some k => Some [k; xaa]
       | _, _ => None
       end |}.

(** A second creator: same keys, another trailing byte. *)
Definition creator_bb : BaseSignatureCreator :=
  {| creator_Checker := checker;
     creator_CreateSig := λ provider keyid _,
       match provider_GetKey provider keyid, Byte.of_N keyid with
       | Some _, Some k => Some [k; xbb]
       | _, _ => None
       end |}.

Definition fresh : SignatureData := SignatureData_empty.
Definition no_keys : SigningProvider := provider_of [] [].
Definition multisig_2of2 : CScript := [x04; x02; x11; x12; x02].
Definition multisig_2of3 : CScript := [x04; x02; x11; x12; x13; x03].
Definition multisig_3of3 : CScript := [x04; x03; x11; x12; x13; x03].
(** [sum_bytes multisig_2of3] is [0x3f]. *)
Definition p2sh_2of3 : CScript := [x03; x3f].

(** The [sigdata] after [ProduceSignature], starting from [d]. *)
Definition produced_from (provider : SigningProvider)
    (creator : BaseSignatureCreator) (script : CScript) (d : SignatureData)
    : SignatureData :=
  default d (snd <$> ProduceSignature provider creator script d).

Definition produced (provider : SigningProvider)
    (creator : BaseSignatureCreator) (script : CScript) : SignatureData :=
  produced_from provider creator script fresh.

(** Pay to pubkey [11]: a call without the key, then one with it. *)
Definition retry_unsigned : SignatureData :=
  produced no_keys creator [x01; x11].
Definition retry_signed : SignatureData :=
  produced_from (provider_of [x11] []) creator [x01; x11] retry_unsigned.

(** Two signers of the 2-of-2 script, one key each. *)
Definition party_11 : SignatureData :=
  produced (provider_of [x11] []) creator multisig_2of2.
Definition party_12 : SignatureData :=
  produced (provider_of [x12] []) creator multisig_2of2.

(** The first key again, signed by the second creator. *)
Definition party_11_bb : SignatureData :=
  produced (provider_of [x11] []) creator_bb multisig_2of2.

(** A fully signed [sigdata] for the 2-of-3 script. *)
Definition signed_2of3 : SignatureData :=
  produced (provider_of [x11; x13] []) creator multisig_2of3.

(** A transaction whose only input carries the placeholder and the
    signatures of keys [11] and [13], for an output locked by the 3-of-3
    script. *)
Definition tx_partial : list CScript :=
  [[x00; x02; x11; xaa; x02; x13; xaa]].
Definition txout_3of3 : CTxOut :=
  {| nValue := 0%Z; scriptPubKey := multisig_3of3 |}.
Definition tx_partial_data1 : SignatureData :=
  snd (VerifyScript_extractor [x00; x02; x11; xaa; x02; x13; xaa]
         multisig_3of3 0 checker (set_scriptSig
           [x00; x02; x11; xaa; x02; x13; xaa] fresh)).

End Toy.

(** ** The rest of sign.cpp: providers, creators, IsSolvable *)

(** What the creators need from key.h, script/interpreter.h and
    script/sighashtype.h. *)
Class SigningPrimitives {W : Collaborators} : Type := {
  uint256 : Type;
  SigHashType : Type;
  (** [SignatureHash(scriptCode, txTo, nIn, sigHashType, amount)] *)
  SignatureHash :
    CScript → CMutableTransaction → nat → SigHashType → Amount → uint256;
  (** [key.SignECDSA(hash, vchSig)]: the signature when it returns true *)
  SignECDSA : CKey → uint256 → option valtype;
  (** [sigHashType.getRawSigHashType()], a [uint32_t] *)
  getRawSigHashType : SigHashType → N;
  SIGHASH_ALL : N;
  SIGHASH_FORKID : N
}.

(** The conversion [uint8_t(n)]. *)
Definition uint8 (n : N) : byte :=
  default x00 (Byte.of_N (n mod 256)).

Module Flat.
Section Flat.
Context {W : Collaborators}.

(** [struct FlatSigningProvider]: the four maps its methods look up. *)
Record FlatSigningProvider : Type := {
  scripts : gmap uint160 CScript;
  pubkeys : gmap uint160 CPubKey;
  origins : gmap uint160 (CPubKey * KeyOriginInfo);
  keys : gmap uint160 CKey
}.

(** [LookupHelper(map, key, value)] *)
Definition LookupHelper {V : Type} (map : gmap uint160 V) (key : uint160)
    : option V :=
  match map !! key with
  | Some it => Some it
  | None => None
  end.

(** [FlatSigningProvider::GetCScript], [GetPubKey], [GetKeyOrigin] and
    [GetKey], as the [SigningProvider] they implement. *)
Definition provider (p : FlatSigningProvider) : SigningProvider :=
  {| provider_GetCScript := λ scriptid, LookupHelper (scripts p) scriptid;
     provider_GetPubKey := λ keyid, LookupHelper (pubkeys p) keyid;
     provider_GetKey := λ keyid, LookupHelper (keys p) keyid;
     provider_GetKeyOrigin := λ keyid,
       match LookupHelper (origins p) keyid with
       | Some out => Some (snd out)
       | None => None
       end |}.

(** [Merge(a, b)] *)
Definition Merge (a b : FlatSigningProvider) : FlatSigningProvider :=
  {| scripts := insert_range (scripts b) (scripts a);
     pubkeys := insert_range (pubkeys b) (pubkeys a);
     keys := insert_range (keys b) (keys a);
     origins := insert_range (origins b) (origins a) |}.

(** [FlatSigningProvider()] *)
Definition empty : FlatSigningProvider :=
  {| scripts := ∅; pubkeys := ∅; origins := ∅; keys := ∅ |}.

End Flat.
End Flat.

Section Creators.
Context {W : Collaborators} {P : SigningPrimitives}.

(** [MutableTransactionSignatureCreator(txTo, nIn, amount, sigHashType)]
    with its [CreateSig] and the [checker] it is built with. *)
Definition MutableTransactionSignatureCreator (txTo : CMutableTransaction)
    (nIn : nat) (amount : Amount) (sigHashType : SigHashType)
    : BaseSignatureCreator :=
  {| creator_Checker := MutableTransactionSignatureChecker txTo nIn amount;
     creator_CreateSig := λ provider address scriptCode,
       key ← provider_GetKey provider address;
       let hash := SignatureHash scriptCode txTo nIn sigHashType amount in
       vchSig ← SignECDSA key hash;
       Some (vchSig ++ [uint8 (getRawSigHashType sigHashType)]) |}.

(** [DummySignatureChecker]: [CheckSig] is overridden, the rest is the
    base class. *)
Definition DUMMY_CHECKER : BaseSignatureChecker CheckerQuery :=
  {| CheckSig := λ _ _ _ _, true;
     CheckOther := CheckOther BaseSignatureChecker_default |}.

(** The vector [DummySignatureCreator::CreateSig] builds: [assign], then
    the nine element writes in the order of the source.  The lengths are
    [char]s; the two instances use 32 and 33. *)
Definition DummySignatureCreator_sig (m_r_len m_s_len : nat) : valtype :=
  let vchSig := replicate (m_r_len + m_s_len + 7) x00 in
  let vchSig := <[0 := x30]> vchSig in
  let vchSig := <[1 := uint8 (N.of_nat (m_r_len + m_s_len + 4))]> vchSig in
  let vchSig := <[2 := x02]> vchSig in
  let vchSig := <[3 := uint8 (N.of_nat m_r_len)]> vchSig in
  let vchSig := <[4 := x01]> vchSig in
  let vchSig := <[4 + m_r_len := x02]> vchSig in
  let vchSig := <[5 + m_r_len := uint8 (N.of_nat m_s_len)]> vchSig in
  let vchSig := <[6 + m_r_len := x01]> vchSig in
  <[6 + m_r_len + m_s_len := uint8 (N.lor SIGHASH_ALL SIGHASH_FORKID)]>
    vchSig.

Definition DummySignatureCreator (m_r_len m_s_len : nat)
    : BaseSignatureCreator :=
  {| creator_Checker := DUMMY_CHECKER;
     creator_CreateSig := λ _ _ _,
       Some (DummySignatureCreator_sig m_r_len m_s_len) |}.

Definition DUMMY_SIGNATURE_CREATOR : BaseSignatureCreator :=
  DummySignatureCreator 32 32.
Definition DUMMY_MAXIMUM_SIGNATURE_CREATOR : BaseSignatureCreator :=
  DummySignatureCreator 33 32.

(** [IsSolvable(provider, script)]; a failing [assert(verified)] gives
    [None]. *)
Definition IsSolvable (provider : SigningProvider) (script : CScript)
    : option bool :=
  match ProduceSignature provider DUMMY_SIGNATURE_CREATOR script
          SignatureData_empty with
  | Some (true, sigs) =>
      let verified :=
        VerifyScript (scriptSig sigs) script STANDARD_SCRIPT_VERIFY_FLAGS
          DUMMY_CHECKER in
      if verified then Some true else None
  | Some (false, _) => Some false
  | None => None
  end.

(** Two providers that answer alike but for [GetKey]. *)
Definition same_public (p p' : SigningProvider) : Prop :=
  (∀ scriptid,
     provider_GetCScript p scriptid = provider_GetCScript p' scriptid) ∧
  (∀ keyid, provider_GetPubKey p keyid = provider_GetPubKey p' keyid) ∧
  (∀ keyid, provider_GetKeyOrigin p keyid = provider_GetKeyOrigin p' keyid).

(** [d'] has what [d] has on record and more: the entries of both maps
    are kept as they are, the two lists are extended at the end. *)
Definition grows (d d' : SignatureData) : Prop :=
  (∀ keyid entry,
     signatures d !! keyid = Some entry →
     signatures d' !! keyid = Some entry) ∧
  (∀ keyid entry,
     misc_pubkeys d !! keyid = Some entry →
     misc_pubkeys d' !! keyid = Some entry) ∧
  missing_sigs d `prefix_of` missing_sigs d' ∧
  missing_pubkeys d `prefix_of` missing_pubkeys d'.

(** Every signature on record was accepted by [checker] for the public
    key it is recorded with, under the id of that key. *)
Definition accepted_by (checker : BaseSignatureChecker CheckerQuery)
    (d : SignatureData) : Prop :=
  ∀ keyid pubkey sig,
    signatures d !! keyid = Some (pubkey, sig) →
    ∃ vchPubKey scriptCode flags,
      CheckSig checker sig vchPubKey scriptCode flags = true ∧
      pubkey = CPubKey_of_vector vchPubKey ∧ keyid = GetID pubkey.

End Creators.

(** The small world, with signing primitives: the "hash" of a script is
    the sum of its bytes, a key signs a hash with the one byte of its
    value, and the hash type is the number itself. *)
Module ToySigning.

#[local] Existing Instance Toy.world.

#[local] Instance primitives : SigningPrimitives := {|
  uint256 := N;
  SigHashType := N;
  SignatureHash := λ scriptCode _ _ _ _, Toy.sum_bytes scriptCode;
  SignECDSA := λ _ hash, Some [uint8 hash];
  getRawSigHashType := id;
  SIGHASH_ALL := 1;
  SIGHASH_FORKID := 64
|}.

(** A flat provider with key [11] and its public key. *)
Definition flat_11 : Flat.FlatSigningProvider :=
  {| Flat.scripts := ∅;
     Flat.pubkeys := {[ 17%N := [x11] ]};
     Flat.origins := ∅;
     Flat.keys := {[ 17%N := tt ]} |}.

(** The creator bound to the transaction [Toy.tx_partial], input 0, with
    hash type [0x41]. *)
Definition tx_creator : BaseSignatureCreator :=
  MutableTransactionSignatureCreator Toy.tx_partial 0 0%Z 65%N.

End ToySigning.

(** * Properties *)

Section Properties.
Context {W : Collaborators}.

Implicit Types (sigdata d : SignatureData) (provider : SigningProvider)
  (creator : BaseSignatureCreator) (keyid : uint160).

#[local] Arguments Nat.div : simpl never.

(** ** Maps: [emplace] and range [insert] *)

Lemma emplace_fresh {V} (k : uint160) (v : V) (m : gmap uint160 V) :
  m !! k = None → emplace k v m = <[k := v]> m.
Proof. unfold emplace. by intros ->. Qed.

Lemma lookup_emplace {V} (k k' : uint160) (v : V) (m : gmap uint160 V) :
  emplace k v m !! k' =
    match m !! k' with
    | Some w => Some w
    | None => if decide (k = k') then Some v else None
    end.
Proof.
  unfold emplace. destruct (m !! k) as [w|] eqn:Hk.
  - destruct (m !! k') eqn:Hk'; [done|].
    case_decide; [congruence|done].
  - rewrite lookup_insert. case_decide as Heq.
    + subst k'. by rewrite Hk.
    + by destruct (m !! k').
Qed.

Lemma lookup_emplace_Some {V} (k k' : uint160) (v w : V)
    (m : gmap uint160 V) :
  m !! k' = Some w → emplace k v m !! k' = Some w.
Proof. intros Hk'. by rewrite lookup_emplace, Hk'. Qed.

Lemma lookup_emplace_is_Some {V} (k k' : uint160) (v : V)
    (m : gmap uint160 V) :
  is_Some (emplace k v m !! k') ↔ k = k' ∨ is_Some (m !! k').
Proof.
  rewrite lookup_emplace. destruct (m !! k') eqn:Hk'.
  - split; eauto.
  - case_decide as Heq; split.
    + by left.
    + eauto.
    + by intros [? ?].
    + by intros [?|[? ?]].
Qed.

Lemma lookup_insert_range {V} (src m : gmap uint160 V) (k : uint160) :
  insert_range src m !! k =
    match m !! k with
    | Some v => Some v
    | None => src !! k
    end.
Proof.
  unfold insert_range.
  apply (map_fold_weak_ind
           (λ acc src', acc !! k =
              match m !! k with Some v => Some v | None => src' !! k end)).
  - rewrite lookup_empty. by destruct (m !! k).
  - intros i x src' acc Hi IH. rewrite lookup_emplace, IH.
    destruct (m !! k) eqn:Hm; [done|].
    rewrite lookup_insert. case_decide as Heq.
    + subst i. by rewrite Hi.
    + by destruct (src' !! k).
Qed.

(** ** The padding loop of the multisig case *)

(** The loop leaves through its condition: [required + 1] iterations are
    never used up.  It pushes [n] items, where [n] is the first count
    with [i + n + (length ret + n)] not below [required + 1]. *)
Lemma multisig_pad_exits (fuel required i : nat) (ret : list valtype) :
  required + 1 ≤ i + length ret + 2 * fuel →
  ∃ n, multisig_pad fuel required i ret = ret ++ replicate n [] ∧
       required + 1 ≤ i + length ret + 2 * n ∧
       (n = 0 ∨ i + length ret + 2 * (n - 1) < required + 1).
Proof.
  revert i ret. induction fuel as [|fuel IH]; intros i ret Hfuel; simpl.
  - exists 0. rewrite app_nil_r. split; [done|]. split; [lia|by left].
  - case_decide as Hcond.
    + destruct (IH (S i) (ret ++ [[]])) as (n & -> & Hexit & Hlast).
      { rewrite length_app. simpl. lia. }
      rewrite length_app in Hexit, Hlast. simpl in Hexit, Hlast.
      exists (S n). rewrite <- app_assoc. simpl.
      split; [done|]. split; [lia|]. right. lia.
    + exists 0. rewrite app_nil_r. split; [done|]. split; [lia|by left].
Qed.

(** The number of items pushed by the loop: half of the missing ones,
    rounded up. *)
Lemma multisig_pad_length (required : nat) (ret : list valtype) :
  length (multisig_pad (required + 1) required 0 ret) =
    length ret + (required + 1 - length ret + 1) / 2.
Proof.
  destruct (multisig_pad_exits (required + 1) required 0 ret)
    as (n & -> & Hexit & Hlast); [lia|].
  rewrite length_app, length_replicate. f_equal.
  apply (Nat.div_unique _ 2 n (required + 1 - length ret + 1 - 2 * n)); lia.
Qed.

(** ** GetPubKey and CreateSig *)

#[local] Instance same_frame_refl : Reflexive same_frame.
Proof. by intros d. Qed.

#[local] Instance same_frame_trans : Transitive same_frame.
Proof.
  intros d1 d2 d3 (H1 & H2 & H3) (H4 & H5 & H6).
  repeat split; congruence.
Qed.

Lemma GetPubKey_sigdata provider sigdata address pubkey sigdata' :
  GetPubKey provider sigdata address = (pubkey, sigdata') →
  sigdata' = sigdata ∨
  ∃ m, sigdata' = set_misc_pubkeys m sigdata.
Proof.
  unfold GetPubKey. intros Heq.
  repeat case_match; simplify_eq; eauto.
Qed.

Lemma GetPubKey_None provider sigdata address :
  signatures sigdata !! address = None →
  misc_pubkeys sigdata !! address = None →
  provider_GetPubKey provider address = None →
  GetPubKey provider sigdata address = (None, sigdata).
Proof. unfold GetPubKey. by intros -> -> ->. Qed.

(** The three sources of a public key, in the order they are tried. *)
Lemma GetPubKey_order provider sigdata address :
  fst (GetPubKey provider sigdata address) =
    match signatures sigdata !! address with
    | Some it => Some (fst it)
    | None =>
        match misc_pubkeys sigdata !! address with
        | Some pk_it => Some (fst pk_it)
        | None => provider_GetPubKey provider address
        end
    end.
Proof. unfold GetPubKey. by repeat case_match. Qed.

(** The [assert(i.second)] of [CreateSig] holds: when the creator is
    called the key id has no entry, so [emplace] inserts. *)
Lemma CreateSig_emplace_fresh creator sigdata provider pubkey scriptcode sig :
  signatures sigdata !! GetID pubkey = None →
  creator_CreateSig creator provider (GetID pubkey) scriptcode = Some sig →
  ∃ sigdata1,
    signatures sigdata1 = signatures sigdata ∧
    CreateSig creator sigdata provider pubkey scriptcode =
      (Some sig,
       set_signatures (<[GetID pubkey := (pubkey, sig)]> (signatures sigdata1))
         sigdata1).
Proof.
  intros Hnone Hsig. unfold CreateSig. rewrite Hnone, Hsig.
  destruct (provider_GetKeyOrigin provider (GetID pubkey)) as [info|]; simpl.
  - exists (set_misc_pubkeys
              (emplace (GetID pubkey) (pubkey, info) (misc_pubkeys sigdata))
              sigdata).
    split; [done|]. by rewrite emplace_fresh.
  - exists sigdata. split; [done|]. by rewrite emplace_fresh.
Qed.

Lemma CreateSig_frame creator sigdata provider pubkey scriptcode r sigdata' :
  CreateSig creator sigdata provider pubkey scriptcode = (r, sigdata') →
  same_frame sigdata sigdata' ∧
  missing_pubkeys sigdata' = missing_pubkeys sigdata ∧
  missing_redeem_script sigdata' = missing_redeem_script sigdata.
Proof.
  unfold CreateSig, same_frame. intros Heq.
  repeat case_match; simplify_eq; done.
Qed.


(** A signature that [CreateSig] returns is the one on record for the key
    afterwards. *)
Lemma CreateSig_Some creator sigdata provider pubkey scriptcode sig sigdata' :
  CreateSig creator sigdata provider pubkey scriptcode
    = (Some sig, sigdata') →
  ∃ pubkey', signatures sigdata' !! GetID pubkey = Some (pubkey', sig).
Proof.
  unfold CreateSig. intros Heq.
  repeat case_match; simplify_eq; simpl.
  - destruct p as [pubkey' sig']. eauto.
  - exists pubkey. rewrite lookup_emplace.
    by case_match; [|case_decide]; simplify_eq.
  - exists pubkey. rewrite lookup_emplace.
    by case_match; [|case_decide]; simplify_eq.
Qed.

(** ** The signing loop of the multisig case *)

Lemma multisig_sign_frame creator provider code required items ret sigdata
    ret' sigdata' :
  multisig_sign creator provider code required items ret sigdata
    = (ret', sigdata') →
  same_frame sigdata sigdata' ∧
  missing_pubkeys sigdata' = missing_pubkeys sigdata ∧
  missing_redeem_script sigdata' = missing_redeem_script sigdata.
Proof.
  revert ret sigdata. induction items as [|vch items IH];
    intros ret sigdata Heq; simpl in Heq.
  - by simplify_eq.
  - case_decide; [|by eauto].
    destruct (CreateSig _ _ _ _ _) as [[sig|] sigdata1] eqn:Hsig;
      apply CreateSig_frame in Hsig as (Hf & Hp & Hr);
      apply IH in Heq as (Hf' & Hp' & Hr');
      (split; [by etrans|split; congruence]).
Qed.



(** ** SignStep *)

Lemma SignStep_whichType provider creator script sigdata solved ret
    whichType sigdata' :
  SignStep provider creator script sigdata
    = Some (solved, ret, whichType, sigdata') →
  whichType = fst (Solver script).
Proof.
  unfold SignStep. destruct (Solver script) as [t vSolutions]. simpl.
  intros Heq. destruct t; simplify_option_eq;
    repeat case_match; by simplify_eq.
Qed.

(** [SignStep] reads nothing out of range when the solver's answer has
    the items its kind promises. *)
Lemma SignStep_total provider creator script sigdata :
  Solver_ok script = true →
  is_Some (SignStep provider creator script sigdata).
Proof.
  unfold Solver_ok, SignStep.
  destruct (Solver script) as [t vSolutions]. intros Hok.
  destruct t; simpl; try done.
  - apply bool_decide_eq_true in Hok.
    destruct vSolutions as [|v0 ?]; [simpl in Hok; lia|]. simpl.
    by repeat case_match.
  - apply bool_decide_eq_true in Hok.
    destruct vSolutions as [|v0 ?]; [simpl in Hok; lia|]. simpl.
    by repeat case_match.
  - apply bool_decide_eq_true in Hok.
    destruct vSolutions as [|v0 ?]; [simpl in Hok; lia|]. simpl.
    by repeat case_match.
  - destruct vSolutions as [|[|front0 ?] [|? ?]]; try done. simpl.
    by repeat case_match.
Qed.

Lemma SignStep_frame provider creator script sigdata solved ret whichType
    sigdata' :
  SignStep provider creator script sigdata
    = Some (solved, ret, whichType, sigdata') →
  same_frame sigdata sigdata'.
Proof.
  unfold SignStep. destruct (Solver script) as [t vSolutions].
  intros Heq. destruct t; simplify_option_eq; try done.
  - destruct (CreateSig _ _ _ _ _) as [[sig|] sigdata1] eqn:Hsig;
      apply CreateSig_frame in Hsig as (Hf & _); by simplify_eq.
  - destruct (GetPubKey _ _ _) as [[pubkey|] sigdata1] eqn:Hpk;
      apply GetPubKey_sigdata in Hpk as [->|[m ->]].
    + destruct (CreateSig _ _ _ _ _) as [[sig|] sigdata2] eqn:Hsig;
        apply CreateSig_frame in Hsig as (Hf & _); by simplify_eq.
    + destruct (CreateSig _ _ _ _ _) as [[sig|] sigdata2] eqn:Hsig;
        apply CreateSig_frame in Hsig as (Hf & _); by simplify_eq.
    + by simplify_eq.
    + by simplify_eq.
  - by case_match; simplify_eq.
  - destruct (multisig_sign _ _ _ _ _ _ _) as [ret1 sigdata1] eqn:Hms.
    apply multisig_sign_frame in Hms as (Hf & _). by simplify_eq.
Qed.

(** A solved TX_SCRIPTHASH step returns the redeem script as its single
    item and leaves [sigdata] as it was. *)
Lemma SignStep_scripthash provider creator script sigdata ret sigdata' :
  SignStep provider creator script sigdata
    = Some (true, ret, TX_SCRIPTHASH, sigdata') →
  ∃ v0 vSolutions scriptRet,
    Solver script = (TX_SCRIPTHASH, v0 :: vSolutions) ∧
    GetCScript provider sigdata (uint160_of_vector v0) = Some scriptRet ∧
    ret = [scriptRet] ∧ sigdata' = sigdata.
Proof.
  unfold SignStep. destruct (Solver script) as [t vSolutions].
  intros Heq. destruct t; simplify_option_eq; repeat case_match;
    simplify_eq.
  destruct vSolutions as [|v0 vSolutions]; simplify_eq.
  simpl in *. simplify_eq. by eexists _, _, _.
Qed.


Lemma multisig_sign_none provider creator code required items ret sigdata :
  signatures sigdata = ∅ →
  (∀ keyid code', creator_CreateSig creator provider keyid code' = None) →
  ∃ sigdata',
    multisig_sign creator provider code required items ret sigdata
      = (ret, sigdata') ∧
    signatures sigdata' = ∅.
Proof.
  intros Hempty Hnone. revert sigdata Hempty.
  induction items as [|vch items IH]; intros sigdata Hempty; simpl.
  - by exists sigdata.
  - case_decide; [|by apply IH].
    unfold CreateSig. rewrite Hempty, lookup_empty, Hnone.
    apply IH. simpl. by case_match.
Qed.

(** C1, on the code.  A TX_MULTISIG script that requires two or more
    signatures, none of which can be made: [SignStep] returns false with
    [1 + (required + 1) / 2] items, fewer than [required + 1].  The
    padding loop counts every item it pushes twice, in [i] and in
    [ret.size()]. *)
Theorem SignStep_multisig_pads_short provider creator script sigdata
    front0 front rest :
  Solver script = (TX_MULTISIG, (front0 :: front) :: rest) →
  2 ≤ Byte.to_nat front0 →
  signatures sigdata = ∅ →
  (∀ keyid code, creator_CreateSig creator provider keyid code = None) →
  ∃ ret sigdata',
    SignStep provider creator script sigdata
      = Some (false, ret, TX_MULTISIG, sigdata') ∧
    length ret = 1 + (Byte.to_nat front0 + 1) / 2 ∧
    length ret < Byte.to_nat front0 + 1.
Proof.
  intros Hsolver Hreq Hempty Hnone.
  unfold SignStep. rewrite Hsolver. simpl.
  destruct (multisig_sign_none provider creator script (Byte.to_nat front0)
              (multisig_items ((front0 :: front) :: rest)) [[]] sigdata
              Hempty Hnone) as (sigdata' & -> & _).
  eexists _, sigdata'. split.
  { f_equal. f_equal. f_equal. f_equal.
    apply bool_decide_eq_false_2. simpl. lia. }
  rewrite multisig_pad_length. simpl.
  replace (Byte.to_nat front0 + 1 - 1 + 1) with (Byte.to_nat front0 + 1)
    by lia.
  split; [done|].
  assert ((Byte.to_nat front0 + 1) / 2 < Byte.to_nat front0); [|lia].
  apply Nat.Div0.div_lt_upper_bound. lia.
Qed.

(** ** The stored scriptSig is not an input of the resolution *)

Lemma GetPubKey_set_scriptSig provider sigdata address old :
  GetPubKey provider (set_scriptSig old sigdata) address =
    prod_map id (set_scriptSig old) (GetPubKey provider sigdata address).
Proof. unfold GetPubKey. simpl. by repeat case_match. Qed.

Lemma CreateSig_set_scriptSig creator sigdata provider pubkey code old :
  CreateSig creator (set_scriptSig old sigdata) provider pubkey code =
    prod_map id (set_scriptSig old)
      (CreateSig creator sigdata provider pubkey code).
Proof. unfold CreateSig. simpl. by repeat case_match. Qed.

Lemma multisig_sign_set_scriptSig creator provider code required items ret
    sigdata old :
  multisig_sign creator provider code required items ret
      (set_scriptSig old sigdata) =
    prod_map id (set_scriptSig old)
      (multisig_sign creator provider code required items ret sigdata).
Proof.
  revert ret sigdata. induction items as [|vch items IH];
    intros ret sigdata; simpl; [done|].
  case_decide; [|done]. rewrite CreateSig_set_scriptSig.
  destruct (CreateSig _ _ _ _ _) as [[sig|] sigdata1]; simpl; apply IH.
Qed.

Lemma SignStep_set_scriptSig provider creator script sigdata old :
  SignStep provider creator script (set_scriptSig old sigdata) =
    prod_map id (set_scriptSig old)
      <$> SignStep provider creator script sigdata.
Proof.
  unfold SignStep. destruct (Solver script) as [t vSolutions].
  destruct t; simpl; try done.
  - destruct (vSolutions !! 0) as [v0|]; simpl; [|done].
    rewrite CreateSig_set_scriptSig.
    by destruct (CreateSig _ _ _ _ _) as [[sig|] sigdata1].
  - destruct (vSolutions !! 0) as [v0|]; simpl; [|done].
    rewrite GetPubKey_set_scriptSig.
    destruct (GetPubKey _ _ _) as [[pubkey|] sigdata1]; simpl; [|done].
    rewrite CreateSig_set_scriptSig.
    by destruct (CreateSig _ _ _ _ _) as [[sig|] sigdata2].
  - destruct (vSolutions !! 0) as [v0|]; simpl; [|done].
    unfold GetCScript. simpl. by repeat case_match.
  - destruct (head vSolutions) as [front|]; simpl; [|done].
    destruct (front !! 0) as [front0|]; simpl; [|done].
    rewrite multisig_sign_set_scriptSig.
    by destruct (multisig_sign _ _ _ _ _ _ _) as [ret1 sigdata1].
Qed.

Lemma ProduceSignature_solve_set_scriptSig provider creator fromPubKey
    sigdata old :
  ProduceSignature_solve provider creator fromPubKey
      (set_scriptSig old sigdata) =
    prod_map id (set_scriptSig old)
      <$> ProduceSignature_solve provider creator fromPubKey sigdata.
Proof.
  unfold ProduceSignature_solve. rewrite SignStep_set_scriptSig.
  destruct (SignStep provider creator fromPubKey sigdata)
    as [[[[solved result] whichType] sigdata1]|]; simpl; [|done].
  destruct (solved && bool_decide (whichType = TX_SCRIPTHASH)); [|done].
  destruct (result !! 0) as [subscript|]; simpl; [|done].
  change (set_redeem_script subscript (set_scriptSig old sigdata1))
    with (set_scriptSig old (set_redeem_script subscript sigdata1)).
  rewrite SignStep_set_scriptSig.
  by destruct (SignStep provider creator subscript _)
    as [[[[solved' result'] whichType'] sigdata2]|].
Qed.

(** ** ProduceSignature *)

Lemma ProduceSignature_solve_total provider creator fromPubKey sigdata :
  Solver_wf →
  is_Some (ProduceSignature_solve provider creator fromPubKey sigdata).
Proof.
  intros Hwf. unfold ProduceSignature_solve.
  destruct (SignStep_total provider creator fromPubKey sigdata
              (Hwf fromPubKey)) as [[[[solved result] whichType] sigdata1] H1].
  rewrite H1. simpl.
  destruct solved; simpl; [|done]. case_bool_decide as Ht; [|done].
  subst whichType.
  apply SignStep_scripthash in H1 as (v0 & vs & scriptRet & _ & _ & -> & ->).
  simpl.
  destruct (SignStep_total provider creator scriptRet
              (set_redeem_script scriptRet sigdata) (Hwf scriptRet))
    as [[[[solved' result'] whichType'] sigdata2] H2].
  by rewrite H2.
Qed.

Lemma ProduceSignature_solve_frame provider creator fromPubKey sigdata
    solved result sigdata' :
  ProduceSignature_solve provider creator fromPubKey sigdata
    = Some (solved, result, sigdata') →
  complete sigdata' = complete sigdata ∧
  scriptSig sigdata' = scriptSig sigdata.
Proof.
  unfold ProduceSignature_solve. intros Heq.
  destruct (SignStep provider creator fromPubKey sigdata)
    as [[[[solved1 result1] whichType1] sigdata1]|] eqn:H1; [|done].
  simpl in Heq. apply SignStep_frame in H1 as (Hc1 & Hs1 & _).
  destruct (solved1 && bool_decide (whichType1 = TX_SCRIPTHASH));
    [|by simplify_eq].
  destruct (result1 !! 0) as [subscript|]; [|done]. simpl in Heq.
  destruct (SignStep provider creator subscript _)
    as [[[[solved2 result2] whichType2] sigdata2]|] eqn:H2; [|done].
  apply SignStep_frame in H2 as (Hc2 & Hs2 & _). simpl in *.
  simplify_eq. split; congruence.
Qed.

(** C2.  On an incomplete [sigdata], [ProduceSignature] resolves, stores
    the serialized items, and sets [complete] to: the resolution succeeded
    and [VerifyScript] accepts the stored script against [fromPubKey]
    under [STANDARD_SCRIPT_VERIFY_FLAGS] with the creator's checker.  The
    value returned is that [complete]. *)
Theorem ProduceSignature_complete_iff provider creator fromPubKey sigdata :
  Solver_wf →
  complete sigdata = false →
  ∃ solved result sigdata1 sigdata',
    ProduceSignature_solve provider creator fromPubKey sigdata
      = Some (solved, result, sigdata1) ∧
    ProduceSignature provider creator fromPubKey sigdata
      = Some (complete sigdata', sigdata') ∧
    scriptSig sigdata' = PushAll result ∧
    (complete sigdata' = true ↔
       solved = true ∧
       VerifyScript (scriptSig sigdata') fromPubKey
         STANDARD_SCRIPT_VERIFY_FLAGS (creator_Checker creator) = true).
Proof.
  intros Hwf Hinc.
  destruct (ProduceSignature_solve_total provider creator fromPubKey sigdata
              Hwf) as [[[solved result] sigdata1] Hsolve].
  unfold ProduceSignature. rewrite Hinc, Hsolve. simpl.
  exists solved, result, sigdata1.
  eexists (set_complete _ (set_scriptSig (PushAll result) sigdata1)).
  split; [done|]. split; [reflexivity|]. simpl. split; [done|].
  apply andb_true_iff.
Qed.

(** C3.  When the locking script is TX_SCRIPTHASH and [GetCScript] finds
    the redeem script, [ProduceSignature] stores it in [redeem_script],
    runs one [SignStep] on it, puts its bytes after the items of that step,
    and does not count the resolution as solved when the redeem script is
    TX_SCRIPTHASH again. *)
Theorem ProduceSignature_scripthash provider creator fromPubKey sigdata
    v0 vSolutions subscript :
  Solver_ok subscript = true →
  complete sigdata = false →
  Solver fromPubKey = (TX_SCRIPTHASH, v0 :: vSolutions) →
  GetCScript provider sigdata (uint160_of_vector v0) = Some subscript →
  ∃ solved' result' whichType' sigdata1 ret sigdata',
    SignStep provider creator subscript (set_redeem_script subscript sigdata)
      = Some (solved', result', whichType', sigdata1) ∧
    ProduceSignature_solve provider creator fromPubKey sigdata
      = Some (solved' && bool_decide (whichType' ≠ TX_SCRIPTHASH),
              result' ++ [subscript], sigdata1) ∧
    ProduceSignature provider creator fromPubKey sigdata
      = Some (ret, sigdata') ∧
    redeem_script sigdata' = subscript ∧
    scriptSig sigdata' = PushAll_step (PushAll result') subscript ∧
    (fst (Solver subscript) = TX_SCRIPTHASH →
       ret = false ∧ complete sigdata' = false).
Proof.
  intros Hok Hinc Hsolver Hscript.
  destruct (SignStep_total provider creator subscript
              (set_redeem_script subscript sigdata) Hok)
    as [[[[solved' result'] whichType'] sigdata1] H2].
  assert (SignStep provider creator fromPubKey sigdata
            = Some (true, [subscript], TX_SCRIPTHASH, sigdata)) as H1.
  { unfold SignStep. rewrite Hsolver. simpl. by rewrite Hscript. }
  assert (ProduceSignature_solve provider creator fromPubKey sigdata
            = Some (solved' && bool_decide (whichType' ≠ TX_SCRIPTHASH),
                    result' ++ [subscript], sigdata1)) as Hsolve.
  { unfold ProduceSignature_solve. rewrite H1. simpl. by rewrite H2. }
  eexists solved', result', whichType', sigdata1, _, _.
  split; [done|]. split; [done|].
  unfold ProduceSignature. rewrite Hinc, Hsolve. simpl.
  split; [reflexivity|]. simpl.
  split; [by apply SignStep_frame in H2 as (_ & _ & ->)|].
  split; [unfold PushAll; by rewrite foldl_app|].
  intros Hnested. apply SignStep_whichType in H2. rewrite Hnested in H2.
  subst whichType'. rewrite bool_decide_eq_false_2 by (by intros []).
  by rewrite andb_false_r.
Qed.

(** C5.  A complete [sigdata] is left as it is by [ProduceSignature],
    which returns true, and by [MergeSignatureData] with any argument. *)
Theorem complete_sigdata_is_final provider creator fromPubKey sigdata other :
  complete sigdata = true →
  ProduceSignature provider creator fromPubKey sigdata
    = Some (true, sigdata) ∧
  MergeSignatureData sigdata other = sigdata.
Proof.
  intros Hc. unfold ProduceSignature, MergeSignatureData. by rewrite Hc.
Qed.

(** C8.  A TX_PUBKEYHASH script whose key hash is in none of the recorded
    signatures, the cached public keys and the provider: [SignStep]
    returns false with no items and appends the hash to
    [missing_pubkeys].  The three places are tried in that order. *)
Theorem SignStep_pubkeyhash_unknown provider creator script sigdata
    v0 vSolutions :
  Solver script = (TX_PUBKEYHASH, v0 :: vSolutions) →
  signatures sigdata !! uint160_of_vector v0 = None →
  misc_pubkeys sigdata !! uint160_of_vector v0 = None →
  provider_GetPubKey provider (uint160_of_vector v0) = None →
  SignStep provider creator script sigdata
    = Some (false, [], TX_PUBKEYHASH,
            set_missing_pubkeys
              (missing_pubkeys sigdata ++ [uint160_of_vector v0]) sigdata) ∧
  (∀ sigdata0 address,
     fst (GetPubKey provider sigdata0 address) =
       match signatures sigdata0 !! address with
       | Some it => Some (fst it)
       | None =>
           match misc_pubkeys sigdata0 !! address with
           | Some pk_it => Some (fst pk_it)
           | None => provider_GetPubKey provider address
           end
       end).
Proof.
  intros Hsolver Hsig Hmisc Hprov. split; [|apply GetPubKey_order].
  unfold SignStep. rewrite Hsolver. simpl.
  by rewrite GetPubKey_None.
Qed.

(** C9.  On an incomplete [sigdata], [ProduceSignature] stores the
    [PushAll] of the items of this call in [scriptSig] whatever it
    returns; the script stored before has no influence on the outcome. *)
Theorem ProduceSignature_overwrites_scriptSig provider creator fromPubKey
    sigdata :
  Solver_wf →
  complete sigdata = false →
  ∃ solved result sigdata1 ret sigdata',
    ProduceSignature_solve provider creator fromPubKey sigdata
      = Some (solved, result, sigdata1) ∧
    ProduceSignature provider creator fromPubKey sigdata
      = Some (ret, sigdata') ∧
    scriptSig sigdata' = PushAll result ∧
    ∀ old,
      ProduceSignature provider creator fromPubKey (set_scriptSig old sigdata)
        = Some (ret, sigdata').
Proof.
  intros Hwf Hinc.
  destruct (ProduceSignature_solve_total provider creator fromPubKey sigdata
              Hwf) as [[[solved result] sigdata1] Hsolve].
  eexists solved, result, sigdata1, _, _. split; [done|].
  unfold ProduceSignature. rewrite Hinc, Hsolve. simpl.
  split; [reflexivity|]. split; [done|].
  intros old. rewrite Hinc, ProduceSignature_solve_set_scriptSig, Hsolve.
  reflexivity.
Qed.

(** ** MergeSignatureData *)

Lemma MergeSignatureData_unfold (a b : SignatureData) :
  complete a = false → complete b = false →
  MergeSignatureData a b =
    set_signatures (insert_range (signatures b) (signatures a))
      (set_redeem_script
         match redeem_script a with
         | [] => redeem_script b
         | _ :: _ => redeem_script a
         end a).
Proof.
  intros Ha Hb. unfold MergeSignatureData. rewrite Ha, Hb.
  destruct a as [c s r sigs misc mp ms mr]. simpl.
  by destruct r, (redeem_script b).
Qed.

(** C4, amended.  Merging into an incomplete [a]: a complete [b] replaces
    [a]; an incomplete [b] gives [a] its redeem script when [a] has none,
    and every entry of [a] and every entry of [b] under a key id that [a]
    does not have are in the merged [signatures], whose key ids are those
    of [a] and [b]; on a key id of both, the entry of [a] stays.  The
    three [missing_*] fields of [a] are kept. *)
Theorem MergeSignatureData_incomplete (a b : SignatureData) :
  complete a = false →
  (complete b = true → MergeSignatureData a b = b) ∧
  (complete b = false →
     redeem_script (MergeSignatureData a b) =
       match redeem_script a with
       | [] => redeem_script b
       | _ :: _ => redeem_script a
       end ∧
     (∀ keyid entry,
        signatures a !! keyid = Some entry →
        signatures (MergeSignatureData a b) !! keyid = Some entry) ∧
     (∀ keyid entry,
        signatures a !! keyid = None →
        signatures b !! keyid = Some entry →
        signatures (MergeSignatureData a b) !! keyid = Some entry) ∧
     (∀ keyid,
        is_Some (signatures (MergeSignatureData a b) !! keyid) ↔
        is_Some (signatures a !! keyid) ∨ is_Some (signatures b !! keyid)) ∧
     missing_sigs (MergeSignatureData a b) = missing_sigs a ∧
     missing_pubkeys (MergeSignatureData a b) = missing_pubkeys a ∧
     missing_redeem_script (MergeSignatureData a b)
       = missing_redeem_script a).
Proof.
  intros Ha. split.
  { intros Hb. unfold MergeSignatureData. by rewrite Ha, Hb. }
  intros Hb. rewrite MergeSignatureData_unfold by done. simpl.
  split; [done|].
  split; [by intros keyid entry Hin; rewrite lookup_insert_range, Hin|].
  split; [by intros keyid entry Hout Hin; rewrite lookup_insert_range, Hout|].
  split; [|done].
  intros keyid. rewrite lookup_insert_range.
  destruct (signatures a !! keyid) eqn:Hk; split; eauto.
  by intros [[? ?]|?].
Qed.

(** ** Signed and missing key ids *)

Lemma missing_unsignable_ext provider creator d d' :
  signatures d' = signatures d →
  missing_sigs d' = missing_sigs d →
  missing_unsignable provider creator d →
  missing_unsignable provider creator d'.
Proof. unfold missing_unsignable. by intros -> ->. Qed.

Lemma CreateSig_unsignable provider creator d pubkey code r d' :
  creator_by_key provider creator →
  missing_unsignable provider creator d →
  CreateSig creator d provider pubkey code = (r, d') →
  missing_unsignable provider creator d'.
Proof.
  intros Hkey Hinv. unfold CreateSig.
  destruct (signatures d !! GetID pubkey) as [it|] eqn:Hfind.
  { intros; by simplify_eq. }
  set (d1 := match provider_GetKeyOrigin provider (GetID pubkey) with
             | Some info => _ | None => d end).
  assert (signatures d1 = signatures d ∧ missing_sigs d1 = missing_sigs d)
    as [Hs1 Hm1].
  { subst d1. by case_match. }
  destruct (creator_CreateSig creator provider (GetID pubkey) code)
    as [sig_out|] eqn:Hsig; intros Heq; simplify_eq;
    intros keyid Hin; simpl in *; rewrite Hs1, ?Hm1 in *.
  - destruct (Hinv keyid Hin) as [Hnone Hno]. split; [|done].
    rewrite lookup_emplace, Hnone. case_decide; [|done]. subst keyid.
    by rewrite Hno in Hsig.
  - apply elem_of_app in Hin as [Hin|Hin].
    + by apply Hinv.
    + apply list_elem_of_singleton in Hin as ->.
      split; [done|]. intros code'. by eapply Hkey.
Qed.

Lemma multisig_sign_unsignable provider creator code required items ret d
    ret' d' :
  creator_by_key provider creator →
  missing_unsignable provider creator d →
  multisig_sign creator provider code required items ret d = (ret', d') →
  missing_unsignable provider creator d'.
Proof.
  intros Hkey. revert ret d. induction items as [|vch items IH];
    intros ret d Hinv Heq; simpl in Heq.
  - by simplify_eq.
  - case_decide; [|by eauto].
    destruct (CreateSig _ _ _ _ _) as [[sig|] d1] eqn:Hsig;
      (eapply IH; [|exact Heq]); by eapply CreateSig_unsignable.
Qed.

Lemma SignStep_unsignable provider creator script d solved ret whichType d' :
  creator_by_key provider creator →
  missing_unsignable provider creator d →
  SignStep provider creator script d = Some (solved, ret, whichType, d') →
  missing_unsignable provider creator d'.
Proof.
  intros Hkey Hinv. unfold SignStep.
  destruct (Solver script) as [t vSolutions].
  intros Heq. destruct t; simplify_option_eq; try done.
  - destruct (CreateSig _ _ _ _ _) as [[sig|] d1] eqn:Hsig;
      simplify_eq; eauto using CreateSig_unsignable.
  - destruct (GetPubKey _ _ _) as [[pubkey|] d1] eqn:Hpk.
    + assert (missing_unsignable provider creator d1) as Hinv1.
      { apply GetPubKey_sigdata in Hpk as [->|[m ->]]; [done|].
        by eapply missing_unsignable_ext. }
      destruct (CreateSig _ _ _ _ _) as [[sig|] d2] eqn:Hsig;
        simplify_eq; eauto using CreateSig_unsignable.
    + simplify_eq.
      apply GetPubKey_sigdata in Hpk as [->|[m ->]];
        by eapply missing_unsignable_ext.
  - case_match; simplify_eq; [done|]. by eapply missing_unsignable_ext.
  - destruct (multisig_sign _ _ _ _ _ _ _) as [ret1 d1] eqn:Hms.
    simplify_eq. eauto using multisig_sign_unsignable.
Qed.

Lemma ProduceSignature_unsignable provider creator fromPubKey d ret d' :
  creator_by_key provider creator →
  missing_unsignable provider creator d →
  ProduceSignature provider creator fromPubKey d = Some (ret, d') →
  missing_unsignable provider creator d'.
Proof.
  intros Hkey Hinv. unfold ProduceSignature, ProduceSignature_solve.
  destruct (complete d); [by intros; simplify_eq|].
  destruct (SignStep provider creator fromPubKey d)
    as [[[[solved1 result1] whichType1] d1]|] eqn:H1; [|done].
  apply SignStep_unsignable in H1; [|done..]. simpl.
  destruct (solved1 && bool_decide (whichType1 = TX_SCRIPTHASH)).
  - destruct (result1 !! 0) as [subscript|]; [|done]. simpl.
    destruct (SignStep provider creator subscript _)
      as [[[[solved2 result2] whichType2] d2]|] eqn:H2; [|done].
    apply SignStep_unsignable in H2; [|done|by eapply missing_unsignable_ext].
    simpl. intros; simplify_eq. by eapply missing_unsignable_ext.
  - simpl. intros; simplify_eq. by eapply missing_unsignable_ext.
Qed.

(** C6, amended.  After any number of [ProduceSignature] calls on a fresh
    [SignatureData], all with the same provider and a creator whose
    ability to sign for a key does not depend on the script, no key id
    has an entry in [signatures] and is listed in [missing_sigs]. *)
Theorem sigs_disjoint_one_signer provider creator d :
  creator_by_key provider creator →
  reachable_with provider creator d →
  sigs_disjoint d.
Proof.
  intros Hkey Hreach.
  assert (missing_unsignable provider creator d) as Hinv.
  { induction Hreach as [|fromPubKey d ret d' _ IH Hstep].
    - by intros keyid ?%elem_of_nil.
    - eauto using ProduceSignature_unsignable. }
  intros keyid [entry Hentry] Hin.
  destruct (Hinv keyid Hin) as [Hnone _]. congruence.
Qed.

(** ** Signature extraction *)

Lemma signatures_only_refl d : signatures_only d d.
Proof. by destruct d. Qed.

Lemma signatures_only_trans d1 d2 d3 :
  signatures_only d1 d2 → signatures_only d2 d3 → signatures_only d1 d3.
Proof. unfold signatures_only. intros H12 H23. by rewrite H23, H12. Qed.

Lemma set_signatures_emplace_known d keyid entry :
  is_Some (signatures d !! keyid) →
  set_signatures (emplace keyid entry (signatures d)) d = d.
Proof.
  intros [v Hv]. unfold emplace. rewrite Hv. by destruct d.
Qed.

Lemma SignatureExtractorChecker_CheckSig_eq checker sig pubkey code flags d :
  SignatureExtractorChecker_CheckSig checker sig pubkey code flags d =
    if CheckSig checker sig pubkey code flags
    then (true,
          set_signatures
            (emplace (GetID (CPubKey_of_vector pubkey))
               (CPubKey_of_vector pubkey, sig) (signatures d)) d)
    else (false, d).
Proof. done. Qed.

(** A verification run with the extractor writes to [signatures]
    only, and only adds entries. *)
Lemma VerifyScript_extractor_signatures_only scriptSig_ scriptPubKey_ flags
    checker d verified d' :
  VerifyScript_extractor scriptSig_ scriptPubKey_ flags checker d
    = (verified, d') →
  signatures_only d d'.
Proof.
  unfold VerifyScript_extractor.
  generalize (VerifyScript_interp scriptSig_ scriptPubKey_ flags) as t.
  intros t. revert d.
  induction t as [b|sig pubkey code fl k IH|q k IH]; intros d Hrun;
    simpl in Hrun.
  - simplify_eq. apply signatures_only_refl.
  - rewrite SignatureExtractorChecker_CheckSig_eq in Hrun.
    destruct (CheckSig checker sig pubkey code fl).
    + eapply signatures_only_trans; [|by eapply IH]. done.
    + by eapply IH.
  - by eapply IH.
Qed.

(** The inner loop is the search for the first matching pubkey. *)
Lemma match_pubkeys_find checker sig code i pubkeys last d :
  match_pubkeys checker sig code i pubkeys last d =
    match list_find (λ pubkey, pubkey_matches checker sig code d pubkey = true)
            pubkeys with
    | Some (j, pubkey) =>
        (S (i + j),
         set_signatures
           (emplace (GetID (CPubKey_of_vector pubkey))
              (CPubKey_of_vector pubkey, sig) (signatures d)) d)
    | None => (last, d)
    end.
Proof.
  revert i. induction pubkeys as [|pubkey pubkeys IH]; intros i; [done|].
  cbn [match_pubkeys list_find].
  rewrite SignatureExtractorChecker_CheckSig_eq.
  case_decide as Hm; unfold pubkey_matches in Hm.
  - rewrite Nat.add_0_r.
    destruct (signatures d !! GetID (CPubKey_of_vector pubkey))
      as [it|] eqn:Hit.
    + by rewrite set_signatures_emplace_known by (by rewrite Hit).
    + rewrite bool_decide_eq_false_2 in Hm by (by intros [? ?]).
      simpl in Hm. by rewrite Hm.
  - apply not_true_is_false, orb_false_iff in Hm as [Hrec Hcheck].
    apply bool_decide_eq_false in Hrec.
    destruct (signatures d !! GetID (CPubKey_of_vector pubkey))
      as [it|] eqn:Hit.
    { destruct Hrec; eauto. }
    rewrite Hcheck, IH.
    destruct (list_find _ pubkeys) as [[j pubkey']|]; simpl; [|done].
    by rewrite Nat.add_succ_r.
Qed.

Lemma match_pubkeys_advance checker sig code pubkeys cursor d :
  match_pubkeys checker sig code cursor (drop cursor pubkeys) cursor d =
    advance_cursor checker sig code pubkeys cursor d.
Proof.
  rewrite match_pubkeys_find. unfold advance_cursor, first_match.
  by destruct (list_find _ _) as [[j pubkey]|].
Qed.

Lemma first_match_Some checker sig code pubkeys cursor d i pubkey :
  first_match checker sig code pubkeys cursor d = Some (i, pubkey) →
  cursor ≤ i ∧ pubkeys !! i = Some pubkey ∧
  pubkey_matches checker sig code d pubkey = true ∧
  ∀ j pubkey', cursor ≤ j < i → pubkeys !! j = Some pubkey' →
    pubkey_matches checker sig code d pubkey' = false.
Proof.
  unfold first_match. intros Hfind.
  destruct (list_find _ _) as [[j pk]|] eqn:Hj; simplify_eq. simpl in *.
  simplify_eq.
  apply list_find_Some in Hj as (Hlook & Hmatch & Hfirst).
  rewrite lookup_drop in Hlook.
  split; [lia|]. split; [done|]. split; [done|].
  intros j' pubkey' Hj' Hlook'.
  apply not_true_is_false. apply (Hfirst (j' - cursor)); [|lia].
  rewrite lookup_drop. by replace (cursor + (j' - cursor)) with j' by lia.
Qed.

Lemma advance_cursor_signatures checker sig code pubkeys cursor d cursor' d' :
  advance_cursor checker sig code pubkeys cursor d = (cursor', d') →
  signatures_only d d' ∧
  ∀ keyid entry,
    signatures d !! keyid = Some entry → signatures d' !! keyid = Some entry.
Proof.
  unfold advance_cursor. intros Hadv.
  destruct (first_match _ _ _ _ _ _) as [[i pubkey]|]; simplify_eq.
  - split; [done|]. intros keyid entry. simpl. apply lookup_emplace_Some.
  - split; [apply signatures_only_refl|done].
Qed.

(** The outer loop, from any cursor and state. *)
Lemma match_sigs_spec checker code pubkeys stack cursor d cursor' d' :
  match_sigs checker code pubkeys stack cursor d = (cursor', d') →
  let log := match_sigs_log checker code pubkeys stack cursor d in
  cursor' = default cursor (S ∘ event_index <$> last log) ∧
  Forall (λ e, cursor ≤ event_index e) log ∧
  StronglySorted lt (event_index <$> log) ∧
  (event_sig <$> log) `sublist_of` stack ∧
  signatures_only d d' ∧
  (∀ keyid entry,
     signatures d !! keyid = Some entry →
     signatures d' !! keyid = Some entry) ∧
  (∀ e, e ∈ log →
     pubkeys !! event_index e = Some (event_pubkey e) ∧
     is_Some (signatures d' !! GetID (CPubKey_of_vector (event_pubkey e))) ∧
     (event_fresh e = true →
        CheckSig checker (event_sig e) (event_pubkey e) code
          STANDARD_SCRIPT_VERIFY_FLAGS = true ∧
        signatures d' !! GetID (CPubKey_of_vector (event_pubkey e))
          = Some (CPubKey_of_vector (event_pubkey e), event_sig e))) ∧
  (log = [] → d' = d).
Proof.
  revert cursor d. induction stack as [|sig stack IH]; intros cursor d Hrun.
  { simpl in *. simplify_eq.
    split; [done|]. split; [done|]. split; [constructor|].
    split; [done|]. split; [apply signatures_only_refl|].
    split; [done|]. split; [|done]. by intros e ?%elem_of_nil. }
  cbn [match_sigs match_sigs_log] in *.
  rewrite match_pubkeys_advance in *.
  destruct (advance_cursor checker sig code pubkeys cursor d)
    as [cursor1 d1] eqn:Hadv.
  destruct (advance_cursor_signatures _ _ _ _ _ _ _ _ Hadv) as [Honly1 Hmono1].
  destruct (IH _ _ Hrun)
    as (Hcur & Hge & Hsorted & Hsub & Honly & Hmono & Hev & Hnil).
  clear IH. unfold advance_cursor in Hadv.
  set (log' := match_sigs_log checker code pubkeys stack cursor1 d1) in *.
  destruct (first_match checker sig code pubkeys cursor d)
    as [[i pubkey]|] eqn:Hfm; injection Hadv as <- <-; simpl.
  - apply first_match_Some in Hfm as (Hle & Hlook & Hmatch & _).
    split.
    { rewrite Hcur, last_cons. by destruct (last log'). }
    split.
    { constructor; [done|]. eapply Forall_impl; [done|]. simpl. lia. }
    split.
    { constructor; [done|]. apply Forall_fmap.
      eapply Forall_impl; [done|]. simpl. lia. }
    split; [by constructor|].
    split; [by eapply signatures_only_trans|].
    split; [by eauto|].
    split; [|done].
    intros e [->|Hin]%elem_of_cons; [|by apply Hev]. simpl.
    split; [done|]. split.
    + destruct (lookup_emplace_is_Some (GetID (CPubKey_of_vector pubkey))
                  (GetID (CPubKey_of_vector pubkey))
                  (CPubKey_of_vector pubkey, sig) (signatures d))
        as [_ [entry Hentry]]; [by left|].
      exists entry. by apply Hmono.
    + intros Hfresh%bool_decide_eq_true.
      unfold pubkey_matches in Hmatch. rewrite Hfresh in Hmatch.
      rewrite bool_decide_eq_false_2 in Hmatch by (by intros [? ?]).
      split; [done|]. apply Hmono. simpl.
      rewrite lookup_emplace, Hfresh. by rewrite decide_True.
  - split; [done|]. split; [done|]. split; [done|].
    split; [by constructor|]. done.
Qed.

(** What "Get scripts" returns: the classification of [next_script], with
    [data] either untouched or with that script as its [redeem_script]. *)
Lemma DataFromTransaction_scripts_spec txout stack d script_type solutions
    next_script stack' d' :
  DataFromTransaction_scripts txout stack d
    = (script_type, solutions, next_script, stack', d') →
  Solver next_script = (script_type, solutions) ∧
  (d' = d ∨ d' = set_redeem_script next_script d).
Proof.
  unfold DataFromTransaction_scripts.
  destruct (Solver (scriptPubKey txout)) as [t sols] eqn:Hsolver.
  intros Heq.
  destruct t, (last stack) as [[|b back]|]; simplify_eq; eauto.
  destruct (Solver (b :: back)) as [t' sols'] eqn:Hsolver'.
  simplify_eq. eauto.
Qed.

Lemma signatures_only_fields d d' :
  signatures_only d d' →
  complete d' = complete d ∧ scriptSig d' = scriptSig d ∧
  redeem_script d' = redeem_script d ∧
  missing_pubkeys d' = missing_pubkeys d ∧
  missing_sigs d' = missing_sigs d ∧
  missing_redeem_script d' = missing_redeem_script d.
Proof. unfold signatures_only. by intros ->. Qed.

(** C7.  In the TX_MULTISIG branch of [DataFromTransaction] with a
    non-empty stack: for each stack item the inner loop finds the first
    pubkey at or after the cursor that has a signature on record or for
    which the item checks, and moves the cursor past it; the cursor
    never moves back.  Over the whole stack the matched pubkey indices
    increase strictly in stack order, every pubkey matched without a
    signature on record ends up on record with the item that checked,
    and the function returns an incomplete [SignatureData], the one it
    started from when nothing matched. *)
Theorem DataFromTransaction_multisig tx nIn txout txin data1 solutions
    next_script stack data2 :
  vin tx !! nIn = Some txin →
  VerifyScript_extractor (txin_scriptSig txin) (scriptPubKey txout)
    STANDARD_SCRIPT_VERIFY_FLAGS
    (MutableTransactionSignatureChecker tx nIn (nValue txout))
    (set_scriptSig (txin_scriptSig txin) SignatureData_empty)
    = (false, data1) →
  DataFromTransaction_scripts txout
    (Stacks (set_scriptSig (txin_scriptSig txin) SignatureData_empty)) data1
    = (TX_MULTISIG, solutions, next_script, stack, data2) →
  stack ≠ [] →
  1 < length solutions →
  let tx_checker := MutableTransactionSignatureChecker tx nIn (nValue txout) in
  let pubkeys := candidate_pubkeys solutions in
  let log := match_sigs_log tx_checker next_script pubkeys stack 0 data2 in
  (∀ sig cursor d,
     match_pubkeys tx_checker sig next_script cursor (drop cursor pubkeys)
       cursor d
     = advance_cursor tx_checker sig next_script pubkeys cursor d ∧
     cursor
       ≤ fst (advance_cursor tx_checker sig next_script pubkeys cursor d)) ∧
  ∃ last_success_key data,
    match_sigs tx_checker next_script pubkeys stack 0 data2
      = (last_success_key, data) ∧
    DataFromTransaction tx nIn txout = Some data ∧
    complete data = false ∧
    last_success_key = default 0 (S ∘ event_index <$> last log) ∧
    StronglySorted lt (event_index <$> log) ∧
    (event_sig <$> log) `sublist_of` stack ∧
    (∀ e, e ∈ log →
       pubkeys !! event_index e = Some (event_pubkey e) ∧
       is_Some (signatures data
                  !! GetID (CPubKey_of_vector (event_pubkey e))) ∧
       (event_fresh e = true →
          CheckSig tx_checker (event_sig e) (event_pubkey e) next_script
            STANDARD_SCRIPT_VERIFY_FLAGS = true ∧
          signatures data !! GetID (CPubKey_of_vector (event_pubkey e))
            = Some (CPubKey_of_vector (event_pubkey e), event_sig e))) ∧
    (log = [] → data = data2).
Proof.
  intros Hin Hverify Hscripts Hstack Hsize tx_checker pubkeys log.
  split.
  { intros sig cursor d. split; [apply match_pubkeys_advance|].
    unfold advance_cursor.
    destruct (first_match _ _ _ _ _ _) as [[i pubkey]|] eqn:Hfm; [|done].
    apply first_match_Some in Hfm as (Hle & _). simpl. lia. }
  destruct (match_sigs tx_checker next_script pubkeys stack 0 data2)
    as [last_success_key data] eqn:Hrun.
  exists last_success_key, data. split; [done|].
  destruct (match_sigs_spec _ _ _ _ _ _ _ _ Hrun)
    as (Hcur & _ & Hsorted & Hsub & Honly & _ & Hev & Hnil).
  split.
  { unfold DataFromTransaction. rewrite Hin. simpl.
    fold tx_checker. unfold tx_checker. rewrite Hverify, Hscripts.
    rewrite bool_decide_eq_true_2 by done.
    rewrite bool_decide_eq_false_2 by done. simpl.
    rewrite decide_True by done. fold tx_checker pubkeys. by rewrite Hrun. }
  split; [|done].
  apply signatures_only_fields in Honly as (-> & _).
  apply DataFromTransaction_scripts_spec in Hscripts as [_ Hd2].
  apply VerifyScript_extractor_signatures_only in Hverify.
  apply signatures_only_fields in Hverify as (Hc1 & _).
  by destruct Hd2 as [->| ->].
Qed.

(** C10.  Whatever [DataFromTransaction] returns has empty
    [missing_pubkeys] and [missing_sigs] and no [missing_redeem_script];
    with an input index in range and a solver that keeps its promises
    about [vSolutions] it does return. *)
Theorem DataFromTransaction_no_missing tx nIn txout :
  nIn < length (vin tx) →
  (∀ data,
     DataFromTransaction tx nIn txout = Some data →
     missing_pubkeys data = [] ∧ missing_sigs data = [] ∧
     missing_redeem_script data = None) ∧
  (Solver_wf → is_Some (DataFromTransaction tx nIn txout)).
Proof.
  intros [txin Hin]%lookup_lt_is_Some_2.
  unfold DataFromTransaction. rewrite Hin. simpl.
  destruct (VerifyScript_extractor _ _ _ _ _) as [verified data1] eqn:Hverify.
  apply VerifyScript_extractor_signatures_only, signatures_only_fields
    in Hverify as (_ & _ & _ & Hp1 & Hs1 & Hr1). simpl in Hp1, Hs1, Hr1.
  destruct verified.
  { split; [|by eauto]. by intros data [= <-]. }
  destruct (DataFromTransaction_scripts _ _ _)
    as [[[[script_type solutions] next_script] stack] data2] eqn:Hscripts.
  apply DataFromTransaction_scripts_spec in Hscripts as [Hsolver Hd2].
  assert (missing_pubkeys data2 = [] ∧ missing_sigs data2 = [] ∧
          missing_redeem_script data2 = None) as (Hp2 & Hs2 & Hr2).
  { by destruct Hd2 as [->| ->]. }
  destruct (bool_decide (script_type = TX_MULTISIG) &&
            negb (bool_decide (stack = []))) eqn:Hbranch.
  - apply andb_true_iff in Hbranch as [->%bool_decide_eq_true _].
    destruct (match_sigs _ _ _ _ _ _) as [last_success_key data3] eqn:Hrun.
    apply match_sigs_spec in Hrun as (_ & _ & _ & _ & Honly & _).
    apply signatures_only_fields in Honly as (_ & _ & _ & Hp3 & Hs3 & Hr3).
    split.
    + case_decide; [|done]. intros data [= <-]. simpl. split_and!; congruence.
    + intros Hwf. specialize (Hwf next_script). unfold Solver_ok in Hwf.
      rewrite Hsolver in Hwf.
      by destruct solutions as [|[|? ?] [|? ?]].
  - split; [|by eauto]. by intros data [= <-].
Qed.

End Properties.

(** * The model at work

    The statements above at concrete inputs of the world [Toy]. *)

#[local] Existing Instance Toy.world.

Lemma Toy_Solver_wf : Solver_wf (W := Toy.world).
Proof.
  intros [|b rest]; [reflexivity|]. unfold Solver_ok. simpl.
  destruct b; try reflexivity.
  by destruct rest as [|m [|k rest]].
Qed.

(** The 2-of-3 script and a provider without keys: two items where three
    are due. *)
Lemma SignStep_multisig_pads_short_witness :
  ∃ ret sigdata',
    SignStep Toy.no_keys Toy.creator Toy.multisig_2of3 Toy.fresh
      = Some (false, ret, TX_MULTISIG, sigdata') ∧
    length ret = 2 ∧ length ret < 2 + 1.
Proof.
  apply (SignStep_multisig_pads_short (W := Toy.world) Toy.no_keys
           Toy.creator Toy.multisig_2of3 Toy.fresh x02 []
           [[x11]; [x12]; [x13]; [x03]]).
  - reflexivity.
  - vm_compute. lia.
  - reflexivity.
  - intros keyid code. reflexivity.
Defined.

(** The 2-of-3 script with keys [11] and [13] at hand. *)
Lemma ProduceSignature_complete_iff_witness :
  Solver_wf (W := Toy.world) ∧ complete Toy.fresh = false ∧
  ∃ solved result sigdata1 sigdata',
    ProduceSignature_solve (Toy.provider_of [x11; x13] []) Toy.creator
        Toy.multisig_2of3 Toy.fresh
      = Some (solved, result, sigdata1) ∧
    ProduceSignature (Toy.provider_of [x11; x13] []) Toy.creator
        Toy.multisig_2of3 Toy.fresh
      = Some (complete sigdata', sigdata') ∧
    scriptSig sigdata' = PushAll result ∧
    (complete sigdata' = true ↔
       solved = true ∧
       VerifyScript (scriptSig sigdata') Toy.multisig_2of3
         STANDARD_SCRIPT_VERIFY_FLAGS (creator_Checker Toy.creator) = true).
Proof.
  split; [exact Toy_Solver_wf|]. split; [reflexivity|].
  exact (ProduceSignature_complete_iff (W := Toy.world)
           (Toy.provider_of [x11; x13] []) Toy.creator Toy.multisig_2of3
           Toy.fresh Toy_Solver_wf eq_refl).
Defined.

(** Pay to script hash of the 2-of-3 script, the provider knowing it. *)
Lemma ProduceSignature_scripthash_witness :
  Solver_ok (W := Toy.world) Toy.multisig_2of3 = true ∧
  ∃ ret sigdata',
    ProduceSignature (Toy.provider_of [x11; x13] [Toy.multisig_2of3])
        Toy.creator Toy.p2sh_2of3 Toy.fresh
      = Some (ret, sigdata') ∧
    redeem_script sigdata' = Toy.multisig_2of3.
Proof.
  split; [reflexivity|].
  destruct (ProduceSignature_scripthash (W := Toy.world)
              (Toy.provider_of [x11; x13] [Toy.multisig_2of3]) Toy.creator
              Toy.p2sh_2of3 Toy.fresh [x3f] [] Toy.multisig_2of3
              eq_refl eq_refl eq_refl eq_refl)
    as (solved' & result' & whichType' & sigdata1 & ret & sigdata'
        & _ & _ & Hproduce & Hredeem & _).
  exists ret, sigdata'. split; [exact Hproduce|exact Hredeem].
Defined.

(** Two signatures for key [11] that differ: the merge keeps the one it
    had, so the entry of the second argument is not in the result. *)
Lemma MergeSignatureData_collision :
  complete Toy.party_11 = false ∧ complete Toy.party_11_bb = false ∧
  signatures Toy.party_11_bb !! 17%N = Some ([x11], [x11; xbb]) ∧
  signatures (MergeSignatureData Toy.party_11 Toy.party_11_bb) !! 17%N
    = Some ([x11], [x11; xaa]) ∧
  signatures (MergeSignatureData Toy.party_11 Toy.party_11_bb) !! 17%N
    ≠ signatures Toy.party_11_bb !! 17%N.
Proof. vm_compute. repeat split; congruence. Qed.

Lemma MergeSignatureData_incomplete_witness :
  complete Toy.party_11 = false ∧
  ∀ keyid,
    is_Some (signatures (MergeSignatureData Toy.party_11 Toy.party_12)
               !! keyid) ↔
    is_Some (signatures Toy.party_11 !! keyid) ∨
    is_Some (signatures Toy.party_12 !! keyid).
Proof.
  split; [reflexivity|].
  destruct (MergeSignatureData_incomplete (W := Toy.world) Toy.party_11
              Toy.party_12 eq_refl) as [_ Hmerge].
  destruct (Hmerge eq_refl) as (_ & _ & _ & Hkeys & _). exact Hkeys.
Defined.

Lemma complete_sigdata_is_final_witness :
  complete Toy.signed_2of3 = true ∧
  ProduceSignature Toy.no_keys Toy.creator_bb Toy.multisig_2of3
      Toy.signed_2of3
    = Some (true, Toy.signed_2of3) ∧
  MergeSignatureData Toy.signed_2of3 Toy.party_11 = Toy.signed_2of3.
Proof.
  split; [reflexivity|].
  exact (complete_sigdata_is_final (W := Toy.world) Toy.no_keys
           Toy.creator_bb Toy.multisig_2of3 Toy.signed_2of3 Toy.party_11
           eq_refl).
Defined.

(** The value returned by a run decides the run, the state being
    [Toy.produced_from]. *)
Lemma Toy_produced_from_run provider creator script d ret :
  fst <$> ProduceSignature (W := Toy.world) provider creator script d
    = Some ret →
  ProduceSignature provider creator script d
    = Some (ret, Toy.produced_from provider creator script d).
Proof.
  unfold Toy.produced_from.
  destruct (ProduceSignature provider creator script d) as [[r d']|];
    simpl; [|done].
  by intros [= ->].
Qed.

(** Two signers of the 2-of-2 script, each holding one key, each listing
    the other key as missing: after the merge, key [12] is signed for and
    still listed. *)
Lemma sigs_disjoint_broken_by_merge :
  reachable (MergeSignatureData Toy.party_11 Toy.party_12) ∧
  is_Some (signatures (MergeSignatureData Toy.party_11 Toy.party_12)
             !! 18%N) ∧
  18%N ∈ missing_sigs (MergeSignatureData Toy.party_11 Toy.party_12) ∧
  ¬ sigs_disjoint (MergeSignatureData Toy.party_11 Toy.party_12).
Proof.
  assert (is_Some (signatures (MergeSignatureData Toy.party_11 Toy.party_12)
                     !! 18%N)) as Hsigned.
  { vm_compute. eauto. }
  assert (18%N ∈ missing_sigs (MergeSignatureData Toy.party_11 Toy.party_12))
    as Hmissing.
  { apply (bool_decide_unpack _). by vm_compute. }
  split; [|split; [done|split; [done|]]].
  - apply reachable_Merge.
    + apply (reachable_ProduceSignature (Toy.provider_of [x11] [])
               Toy.creator Toy.multisig_2of2 SignatureData_empty false);
        [constructor|].
      apply Toy_produced_from_run. by vm_compute.
    + apply (reachable_ProduceSignature (Toy.provider_of [x12] [])
               Toy.creator Toy.multisig_2of2 SignatureData_empty false);
        [constructor|].
      apply Toy_produced_from_run. by vm_compute.
  - intros Hdisjoint. by apply (Hdisjoint 18%N).
Qed.

(** Without a merge: a call that cannot sign for key [11], then a call on
    the same [sigdata] with a provider that holds the key. *)
Lemma sigs_disjoint_broken_by_second_provider :
  ProduceSignature Toy.no_keys Toy.creator [x01; x11] Toy.fresh
    = Some (false, Toy.retry_unsigned) ∧
  ProduceSignature (Toy.provider_of [x11] []) Toy.creator [x01; x11]
      Toy.retry_unsigned
    = Some (true, Toy.retry_signed) ∧
  is_Some (signatures Toy.retry_signed !! 17%N) ∧
  missing_sigs Toy.retry_signed = [17%N].
Proof.
  split; [apply Toy_produced_from_run; by vm_compute|].
  split; [apply Toy_produced_from_run; by vm_compute|].
  split; [vm_compute; eauto|by vm_compute].
Qed.

Lemma sigs_disjoint_one_signer_witness :
  creator_by_key (Toy.provider_of [x11] []) Toy.creator ∧
  reachable_with (Toy.provider_of [x11] []) Toy.creator Toy.party_11 ∧
  sigs_disjoint Toy.party_11.
Proof.
  assert (creator_by_key (W := Toy.world) (Toy.provider_of [x11] [])
            Toy.creator) as Hkey.
  { intros keyid code code' Hnone. exact Hnone. }
  assert (reachable_with (Toy.provider_of [x11] []) Toy.creator Toy.party_11)
    as Hreach.
  { apply (reachable_with_step _ _ Toy.multisig_2of2 SignatureData_empty
             false); [constructor|].
    apply Toy_produced_from_run. vm_compute. reflexivity. }
  split; [exact Hkey|]. split; [exact Hreach|].
  exact (sigs_disjoint_one_signer (W := Toy.world) _ _ _ Hkey Hreach).
Defined.

(** Extraction from the input that carries two of the three signatures:
    the items match pubkeys 0 and 2, in that order. *)
Lemma DataFromTransaction_multisig_witness :
  ∃ data,
    DataFromTransaction (W := Toy.world) Toy.tx_partial 0 Toy.txout_3of3
      = Some data ∧
    complete data = false ∧
    event_index <$>
      match_sigs_log Toy.checker Toy.multisig_3of3 [[x11]; [x12]; [x13]]
        [[]; [x11; xaa]; [x13; xaa]] 0 Toy.tx_partial_data1
      = [0; 2].
Proof.
  destruct (DataFromTransaction_multisig (W := Toy.world) Toy.tx_partial 0
              Toy.txout_3of3 [x00; x02; x11; xaa; x02; x13; xaa]
              Toy.tx_partial_data1
              [[x03]; [x11]; [x12]; [x13]; [x03]] Toy.multisig_3of3
              [[]; [x11; xaa]; [x13; xaa]] Toy.tx_partial_data1)
    as [_ (last_success_key & data & _ & Hdata & Hincomplete & _)].
  - reflexivity.
  - reflexivity.
  - reflexivity.
  - discriminate.
  - vm_compute. lia.
  - exists data. split; [exact Hdata|]. split; [exact Hincomplete|].
    vm_compute. reflexivity.
Defined.

Lemma SignStep_pubkeyhash_unknown_witness :
  SignStep Toy.no_keys Toy.creator [x02; x11] Toy.fresh
    = Some (false, [], TX_PUBKEYHASH,
            set_missing_pubkeys [17%N] Toy.fresh).
Proof.
  exact (proj1 (SignStep_pubkeyhash_unknown (W := Toy.world) Toy.no_keys
                  Toy.creator [x02; x11] Toy.fresh [x11] []
                  eq_refl eq_refl eq_refl eq_refl)).
Defined.

(** A failing call on a [sigdata] that holds a script: the script is
    replaced by the two empty pushes of this call. *)
Lemma ProduceSignature_overwrites_scriptSig_witness :
  Solver_wf (W := Toy.world) ∧ complete Toy.fresh = false ∧
  ∃ sigdata',
    ProduceSignature Toy.no_keys Toy.creator Toy.multisig_2of3
        (set_scriptSig [x51] Toy.fresh)
      = Some (false, sigdata') ∧
    scriptSig sigdata' = [x00; x00].
Proof.
  split; [exact Toy_Solver_wf|]. split; [reflexivity|].
  destruct (ProduceSignature_overwrites_scriptSig (W := Toy.world)
              Toy.no_keys Toy.creator Toy.multisig_2of3 Toy.fresh
              Toy_Solver_wf eq_refl)
    as (solved & result & sigdata1 & ret & sigdata' & _ & Hrun & _ & Hold).
  exists sigdata'.
  assert (prod_map id scriptSig
            <$> ProduceSignature Toy.no_keys Toy.creator Toy.multisig_2of3
                  Toy.fresh
          = Some (false, [x00; x00])) as Hvalue.
  { vm_compute. reflexivity. }
  rewrite Hrun in Hvalue. simpl in Hvalue.
  injection Hvalue as Hret Hscript.
  split; [|exact Hscript]. rewrite <- Hret. apply Hold.
Defined.

Lemma DataFromTransaction_no_missing_witness :
  0 < length (@vin Toy.world Toy.tx_partial) ∧
  ∃ data,
    DataFromTransaction (W := Toy.world) Toy.tx_partial 0 Toy.txout_3of3
      = Some data ∧
    missing_pubkeys data = [] ∧ missing_sigs data = [] ∧
    missing_redeem_script data = None.
Proof.
  assert (0 < length (@vin Toy.world Toy.tx_partial)) as Hin.
  { vm_compute. lia. }
  split; [exact Hin|].
  destruct (DataFromTransaction_no_missing (W := Toy.world) Toy.tx_partial 0
              Toy.txout_3of3 Hin) as [Hall Hsome].
  destruct (Hsome Toy_Solver_wf) as [data Hdata].
  exists data. split; [exact Hdata|]. exact (Hall data Hdata).
Defined.

(** * The rest of sign.cpp *)

Section MoreProperties.
Context {W : Collaborators}.

Implicit Types (sigdata d : SignatureData) (provider : SigningProvider)
  (creator : BaseSignatureCreator) (keyid : uint160).

(** ** FlatSigningProvider *)

Lemma insert_range_union {V} (src m : gmap uint160 V) :
  insert_range src m = m ∪ src.
Proof.
  apply map_eq. intros k. rewrite lookup_insert_range, lookup_union.
  by destruct (m !! k), (src !! k).
Qed.

Lemma LookupHelper_lookup {V} (map : gmap uint160 V) key :
  Flat.LookupHelper map key = map !! key.
Proof. unfold Flat.LookupHelper. by destruct (map !! key). Qed.

(** X1.  Each lookup in [Merge(a, b)] gives the answer of [a] when [a]
    has one and the answer of [b] otherwise. *)
Theorem Flat_Merge_lookup (a b : Flat.FlatSigningProvider) :
  (∀ scriptid,
     provider_GetCScript (Flat.provider (Flat.Merge a b)) scriptid =
       match provider_GetCScript (Flat.provider a) scriptid with
       | Some script => Some script
       | None => provider_GetCScript (Flat.provider b) scriptid
       end) ∧
  (∀ keyid,
     provider_GetPubKey (Flat.provider (Flat.Merge a b)) keyid =
       match provider_GetPubKey (Flat.provider a) keyid with
       | Some pubkey => Some pubkey
       | None => provider_GetPubKey (Flat.provider b) keyid
       end) ∧
  (∀ keyid,
     provider_GetKey (Flat.provider (Flat.Merge a b)) keyid =
       match provider_GetKey (Flat.provider a) keyid with
       | Some key => Some key
       | None => provider_GetKey (Flat.provider b) keyid
       end) ∧
  (∀ keyid,
     provider_GetKeyOrigin (Flat.provider (Flat.Merge a b)) keyid =
       match provider_GetKeyOrigin (Flat.provider a) keyid with
       | Some info => Some info
       | None => provider_GetKeyOrigin (Flat.provider b) keyid
       end).
Proof.
  repeat split; intros k; simpl; rewrite !LookupHelper_lookup;
    rewrite lookup_insert_range.
  - by destruct (Flat.scripts a !! k).
  - by destruct (Flat.pubkeys a !! k).
  - by destruct (Flat.keys a !! k).
  - by destruct (Flat.origins a !! k).
Qed.

(** X2.  [Merge] of providers is associative, and merging a provider
    with itself or with an empty one, on either side, gives it back. *)
Theorem Flat_Merge_monoid (a b c : Flat.FlatSigningProvider) :
  Flat.Merge (Flat.Merge a b) c = Flat.Merge a (Flat.Merge b c) ∧
  Flat.Merge a a = a ∧
  Flat.Merge Flat.empty a = a ∧
  Flat.Merge a Flat.empty = a.
Proof.
  destruct a as [sa pa oa ka], b as [sb pb ob kb], c as [sc pc oc kc].
  unfold Flat.Merge, Flat.empty. simpl. rewrite !insert_range_union.
  split; [by rewrite !(assoc_L (∪))|].
  split; [by rewrite !(idemp_L (∪))|].
  split; [by rewrite !(left_id_L ∅ (∪))|].
  by rewrite !(right_id_L ∅ (∪)).
Qed.

(** ** HidingSigningProvider *)

(** X3.  A hiding provider around a hiding provider answers as one
    hiding provider with the flags of both; with no flag set it answers
    as the provider it wraps. *)
Theorem HidingSigningProvider_compose provider
    (hide_secret hide_origin hide_secret' hide_origin' : bool) :
  let inner := HidingSigningProvider provider hide_secret hide_origin in
  let twice := HidingSigningProvider inner hide_secret' hide_origin' in
  let once :=
    HidingSigningProvider provider (hide_secret || hide_secret')
      (hide_origin || hide_origin') in
  let plain := HidingSigningProvider provider false false in
  (∀ scriptid,
     provider_GetCScript twice scriptid = provider_GetCScript once scriptid ∧
     provider_GetCScript plain scriptid
       = provider_GetCScript provider scriptid) ∧
  (∀ keyid,
     provider_GetPubKey twice keyid = provider_GetPubKey once keyid ∧
     provider_GetKey twice keyid = provider_GetKey once keyid ∧
     provider_GetKeyOrigin twice keyid = provider_GetKeyOrigin once keyid ∧
     provider_GetPubKey plain keyid = provider_GetPubKey provider keyid ∧
     provider_GetKey plain keyid = provider_GetKey provider keyid ∧
     provider_GetKeyOrigin plain keyid
       = provider_GetKeyOrigin provider keyid).
Proof.
  simpl. split; [done|]. intros keyid.
  by destruct hide_secret, hide_secret', hide_origin, hide_origin'.
Qed.

(** ** What a signing step keeps *)

#[local] Arguments Nat.div : simpl never.

#[local] Instance grows_refl : Reflexive grows.
Proof. intros d. by repeat split. Qed.

#[local] Instance grows_trans : Transitive grows.
Proof.
  intros d1 d2 d3 (Hs & Hm & Hms & Hmp) (Hs' & Hm' & Hms' & Hmp').
  repeat split; [by eauto|by eauto|by etrans|by etrans].
Qed.

Lemma GetPubKey_grows provider sigdata address pubkey sigdata' :
  GetPubKey provider sigdata address = (pubkey, sigdata') →
  grows sigdata sigdata'.
Proof.
  unfold GetPubKey. intros Heq.
  repeat case_match; simplify_eq; try reflexivity.
  repeat split; simpl; try done.
  intros keyid entry. apply lookup_emplace_Some.
Qed.

Lemma CreateSig_grows creator sigdata provider pubkey scriptcode r sigdata' :
  CreateSig creator sigdata provider pubkey scriptcode = (r, sigdata') →
  grows sigdata sigdata'.
Proof.
  unfold CreateSig. intros Heq.
  repeat case_match; simplify_eq; try reflexivity;
    repeat split; simpl; try done;
    try (intros keyid entry; apply lookup_emplace_Some);
    by apply prefix_app_r.
Qed.

Lemma multisig_sign_grows creator provider code required items ret sigdata
    ret' sigdata' :
  multisig_sign creator provider code required items ret sigdata
    = (ret', sigdata') →
  grows sigdata sigdata'.
Proof.
  revert ret sigdata. induction items as [|vch items IH];
    intros ret sigdata Heq; simpl in Heq.
  - by simplify_eq.
  - case_decide; [|by eauto].
    destruct (CreateSig _ _ _ _ _) as [[sig|] sigdata1] eqn:Hsig;
      (etrans; [by eapply CreateSig_grows|by eapply IH]).
Qed.

Lemma SignStep_grows provider creator script sigdata solved ret whichType
    sigdata' :
  SignStep provider creator script sigdata
    = Some (solved, ret, whichType, sigdata') →
  grows sigdata sigdata'.
Proof.
  unfold SignStep. destruct (Solver script) as [t vSolutions].
  intros Heq. destruct t; simplify_option_eq; try reflexivity.
  - destruct (CreateSig _ _ _ _ _) as [[sig|] sigdata1] eqn:Hsig;
      apply CreateSig_grows in Hsig; by simplify_eq.
  - destruct (GetPubKey _ _ _) as [[pubkey|] sigdata1] eqn:Hpk;
      apply GetPubKey_grows in Hpk.
    + destruct (CreateSig _ _ _ _ _) as [[sig|] sigdata2] eqn:Hsig;
        apply CreateSig_grows in Hsig; simplify_eq; by etrans.
    + simplify_eq. etrans; [done|].
      repeat split; simpl; try done. by apply prefix_app_r.
  - case_match; simplify_eq; [reflexivity|]. by repeat split.
  - destruct (multisig_sign _ _ _ _ _ _ _) as [ret1 sigdata1] eqn:Hms.
    apply multisig_sign_grows in Hms. by simplify_eq.
Qed.

(** X4.  [ProduceSignature] only adds to what is on record: every entry
    of [signatures] and of [misc_pubkeys] is kept as it is, and
    [missing_sigs] and [missing_pubkeys] are extended at the end. *)
Theorem ProduceSignature_grows provider creator fromPubKey sigdata ret
    sigdata' :
  ProduceSignature provider creator fromPubKey sigdata = Some (ret, sigdata') →
  grows sigdata sigdata'.
Proof.
  unfold ProduceSignature, ProduceSignature_solve.
  destruct (complete sigdata); [by intros; simplify_eq|].
  destruct (SignStep provider creator fromPubKey sigdata)
    as [[[[solved1 result1] whichType1] d1]|] eqn:H1; [|done].
  apply SignStep_grows in H1. simpl.
  destruct (solved1 && bool_decide (whichType1 = TX_SCRIPTHASH)).
  - destruct (result1 !! 0) as [subscript|]; [|done]. simpl.
    destruct (SignStep provider creator subscript _)
      as [[[[solved2 result2] whichType2] d2]|] eqn:H2; [|done].
    apply SignStep_grows in H2. simpl. intros; simplify_eq.
    etrans; [done|]. by etrans.
  - simpl. intros; simplify_eq. by etrans.
Qed.

(** X5.  Once [CreateSig] has returned a signature for a public key,
    every later [CreateSig] for that key, with any creator, provider or
    script, returns the same signature and changes nothing. *)
Theorem CreateSig_again creator sigdata provider pubkey scriptcode sig
    sigdata' creator' provider' scriptcode' :
  CreateSig creator sigdata provider pubkey scriptcode
    = (Some sig, sigdata') →
  CreateSig creator' sigdata' provider' pubkey scriptcode'
    = (Some sig, sigdata').
Proof.
  intros [pubkey' Hrec]%CreateSig_Some.
  unfold CreateSig. by rewrite Hrec.
Qed.

(** X6.  When [ProduceSignature] has returned true, a further call on the
    result, with any provider, creator or script, returns true and
    changes nothing. *)
Theorem ProduceSignature_again provider creator fromPubKey sigdata
    sigdata' provider' creator' fromPubKey' :
  ProduceSignature provider creator fromPubKey sigdata
    = Some (true, sigdata') →
  ProduceSignature provider' creator' fromPubKey' sigdata'
    = Some (true, sigdata').
Proof.
  intros Hrun.
  assert (complete sigdata' = true) as Hc.
  { unfold ProduceSignature in Hrun.
    destruct (complete sigdata) eqn:Hc; [by simplify_eq|].
    destruct (ProduceSignature_solve _ _ _ _) as [[[solved result] d1]|];
      [|done].
    simpl in Hrun. injection Hrun as Hok <-. simpl. exact Hok. }
  unfold ProduceSignature. by rewrite Hc.
Qed.



(** X9.  A script the solver does not recognise, or a data carrier:
    [ProduceSignature] returns false, stores the empty script and leaves
    the rest of an incomplete [sigdata] as it was. *)
Theorem ProduceSignature_nonstandard provider creator fromPubKey sigdata :
  complete sigdata = false →
  fst (Solver fromPubKey) = TX_NONSTANDARD ∨
  fst (Solver fromPubKey) = TX_NULL_DATA →
  ProduceSignature provider creator fromPubKey sigdata
    = Some (false, set_scriptSig [] sigdata).
Proof.
  intros Hinc Hkind.
  unfold ProduceSignature, ProduceSignature_solve, SignStep.
  rewrite Hinc. destruct (Solver fromPubKey) as [t vSolutions].
  simpl in Hkind. destruct Hkind as [-> | ->]; simpl;
    destruct sigdata; simpl in *; by subst.
Qed.

(** X10.  A TX_SCRIPTHASH script whose redeem script neither the provider
    nor [sigdata] has: [ProduceSignature] returns false, stores the empty
    script and records the script hash in [missing_redeem_script]. *)
Theorem ProduceSignature_missing_redeem_script provider creator fromPubKey
    sigdata v0 vSolutions :
  complete sigdata = false →
  Solver fromPubKey = (TX_SCRIPTHASH, v0 :: vSolutions) →
  GetCScript provider sigdata (uint160_of_vector v0) = None →
  ProduceSignature provider creator fromPubKey sigdata
    = Some (false,
            set_missing_redeem_script (Some (uint160_of_vector v0))
              (set_scriptSig [] sigdata)).
Proof.
  intros Hinc Hsolver Hnone.
  unfold ProduceSignature, ProduceSignature_solve, SignStep.
  rewrite Hinc, Hsolver. simpl. rewrite Hnone. simpl.
  destruct sigdata; simpl in *; by subst.
Qed.

(** ** MergeSignatureData as an operation *)

Lemma MergeSignatureData_complete_l (a b : SignatureData) :
  complete a = true → MergeSignatureData a b = a.
Proof. intros Ha. unfold MergeSignatureData. by rewrite Ha. Qed.

Lemma MergeSignatureData_complete_r (a b : SignatureData) :
  complete a = false → complete b = true → MergeSignatureData a b = b.
Proof. intros Ha Hb. unfold MergeSignatureData. by rewrite Ha, Hb. Qed.

(** X11.  [MergeSignatureData] is associative. *)
Theorem MergeSignatureData_assoc (a b c : SignatureData) :
  MergeSignatureData (MergeSignatureData a b) c =
  MergeSignatureData a (MergeSignatureData b c).
Proof.
  destruct (complete a) eqn:Ha.
  { by rewrite !(MergeSignatureData_complete_l a). }
  destruct (complete b) eqn:Hb.
  { rewrite (MergeSignatureData_complete_r a b) by done.
    rewrite (MergeSignatureData_complete_l b) by done.
    by rewrite MergeSignatureData_complete_r. }
  destruct (complete c) eqn:Hc.
  { assert (complete (MergeSignatureData a b) = false) as Hab.
    { by rewrite MergeSignatureData_unfold. }
    rewrite (MergeSignatureData_complete_r _ c) by done.
    rewrite (MergeSignatureData_complete_r b c) by done.
    by rewrite MergeSignatureData_complete_r. }
  assert (complete (MergeSignatureData a b) = false) as Hab.
  { by rewrite MergeSignatureData_unfold. }
  assert (complete (MergeSignatureData b c) = false) as Hbc.
  { by rewrite MergeSignatureData_unfold. }
  rewrite (MergeSignatureData_unfold _ c Hab Hc).
  rewrite (MergeSignatureData_unfold a _ Ha Hbc).
  rewrite (MergeSignatureData_unfold a b Ha Hb).
  rewrite (MergeSignatureData_unfold b c Hb Hc).
  unfold set_signatures, set_redeem_script. simpl.
  rewrite !insert_range_union, (assoc_L (∪)).
  f_equal. by destruct (redeem_script a), (redeem_script b).
Qed.

(** X12.  Merging a [SignatureData] with itself or with a fresh one gives
    it back. *)
Theorem MergeSignatureData_idemp (a : SignatureData) :
  MergeSignatureData a a = a ∧
  MergeSignatureData a SignatureData_empty = a.
Proof.
  destruct (complete a) eqn:Ha.
  { unfold MergeSignatureData. by rewrite !Ha. }
  rewrite !MergeSignatureData_unfold by done.
  rewrite !insert_range_union, (idemp_L (∪)). simpl.
  rewrite (right_id_L ∅ (∪)).
  destruct a as [c s r sigs misc mp ms mr]. simpl. by destruct r.
Qed.

(** ** Signature extraction *)

Lemma run_extractor_verdict checker (t : Interp CheckerQuery) d :
  fst (run (SignatureExtractorChecker_CheckSig checker)
         (CheckOther BaseSignatureChecker_default) t d) =
  run_pure {| CheckSig := CheckSig checker;
              CheckOther := CheckOther BaseSignatureChecker_default |} t.
Proof.
  unfold run_pure. revert d.
  induction t as [b|sig pubkey code fl k IH|q k IH]; intros d; simpl.
  - done.
  - rewrite SignatureExtractorChecker_CheckSig_eq.
    destruct (CheckSig checker sig pubkey code fl); apply IH.
  - apply IH.
Qed.

(** X13.  Recording does not change the verdict: [VerifyScript] with a
    [SignatureExtractorChecker] around [checker] decides as with a checker
    that has the [CheckSig] of [checker] and the other methods of the
    base class. *)
Theorem VerifyScript_extractor_verdict scriptSig_ scriptPubKey_ flags
    checker d :
  fst (VerifyScript_extractor scriptSig_ scriptPubKey_ flags checker d) =
  VerifyScript scriptSig_ scriptPubKey_ flags
    {| CheckSig := CheckSig checker;
       CheckOther := CheckOther BaseSignatureChecker_default |}.
Proof. apply run_extractor_verdict. Qed.

Lemma accepted_by_emplace checker d sig vchPubKey scriptCode flags :
  accepted_by checker d →
  CheckSig checker sig vchPubKey scriptCode flags = true →
  accepted_by checker
    (set_signatures
       (emplace (GetID (CPubKey_of_vector vchPubKey))
          (CPubKey_of_vector vchPubKey, sig) (signatures d)) d).
Proof.
  intros Hacc Hcheck keyid pubkey sig'. simpl. rewrite lookup_emplace.
  destruct (signatures d !! keyid) as [entry|] eqn:Hentry.
  { intros [= ->]. by apply Hacc. }
  case_decide; [|done]. intros [= <- <-]. by eexists _, _, _.
Qed.

Lemma run_extractor_accepted checker (t : Interp CheckerQuery) d :
  accepted_by checker d →
  accepted_by checker
    (snd (run (SignatureExtractorChecker_CheckSig checker)
            (CheckOther BaseSignatureChecker_default) t d)).
Proof.
  revert d. induction t as [b|sig pubkey code fl k IH|q k IH];
    intros d Hacc; simpl.
  - done.
  - rewrite SignatureExtractorChecker_CheckSig_eq.
    destruct (CheckSig checker sig pubkey code fl) eqn:Hcheck;
      apply IH; [|done].
    by eapply accepted_by_emplace.
  - by apply IH.
Qed.

Lemma advance_cursor_accepted checker sig code pubkeys cursor d :
  accepted_by checker d →
  accepted_by checker (snd (advance_cursor checker sig code pubkeys cursor d)).
Proof.
  intros Hacc. unfold advance_cursor.
  destruct (first_match _ _ _ _ _ _) as [[i pubkey]|] eqn:Hfm; [|done].
  apply first_match_Some in Hfm as (_ & _ & Hmatch & _). simpl.
  unfold pubkey_matches in Hmatch.
  apply orb_true_iff in Hmatch as [Hknown|Hcheck].
  - apply bool_decide_eq_true in Hknown.
    by rewrite set_signatures_emplace_known.
  - by eapply accepted_by_emplace.
Qed.

Lemma match_sigs_accepted checker code pubkeys stack cursor d :
  accepted_by checker d →
  accepted_by checker (snd (match_sigs checker code pubkeys stack cursor d)).
Proof.
  revert cursor d. induction stack as [|sig stack IH]; intros cursor d Hacc;
    [done|].
  cbn [match_sigs]. rewrite match_pubkeys_advance.
  pose proof (advance_cursor_accepted checker sig code pubkeys cursor d Hacc)
    as Hacc1.
  destruct (advance_cursor checker sig code pubkeys cursor d)
    as [cursor1 d1]. by apply IH.
Qed.

(** X14.  Every signature that [DataFromTransaction] returns was accepted
    by the transaction's signature checker for the public key it is
    recorded with, and is filed under the id of that key. *)
Theorem DataFromTransaction_sound tx nIn txout data :
  DataFromTransaction tx nIn txout = Some data →
  accepted_by (MutableTransactionSignatureChecker tx nIn (nValue txout))
    data.
Proof.
  unfold DataFromTransaction.
  destruct (vin tx !! nIn) as [txin|]; [|done]. simpl.
  set (checker := MutableTransactionSignatureChecker tx nIn (nValue txout)).
  set (data0 := set_scriptSig (txin_scriptSig txin) SignatureData_empty).
  assert (accepted_by checker data0) as Hacc0.
  { intros keyid pubkey sig. simpl. by rewrite lookup_empty. }
  pose proof (run_extractor_accepted checker
                (VerifyScript_interp (txin_scriptSig txin)
                   (scriptPubKey txout) STANDARD_SCRIPT_VERIFY_FLAGS)
                data0 Hacc0) as Hacc1.
  fold (VerifyScript_extractor (txin_scriptSig txin) (scriptPubKey txout)
          STANDARD_SCRIPT_VERIFY_FLAGS checker data0) in Hacc1.
  destruct (VerifyScript_extractor _ _ _ _ _) as [verified data1].
  simpl in Hacc1. destruct verified.
  { intros [= <-]. exact Hacc1. }
  destruct (DataFromTransaction_scripts _ _ _)
    as [[[[script_type solutions] next_script] stack] data2] eqn:Hscripts.
  apply DataFromTransaction_scripts_spec in Hscripts as [_ Hd2].
  assert (accepted_by checker data2) as Hacc2.
  { by destruct Hd2 as [->| ->]. }
  destruct (bool_decide (script_type = TX_MULTISIG) &&
            negb (bool_decide (stack = []))).
  - case_decide; [|done]. intros [= <-]. by apply match_sigs_accepted.
  - by intros [= <-].
Qed.

(** X15.  What [DataFromTransaction] returns carries the input's
    [scriptSig] unchanged and no cached public keys, and is complete
    exactly when the verification with the recording checker accepted;
    an input index out of range stops it. *)
Theorem DataFromTransaction_result tx nIn txout :
  match vin tx !! nIn with
  | None => DataFromTransaction tx nIn txout = None
  | Some txin =>
      ∀ data,
        DataFromTransaction tx nIn txout = Some data →
        scriptSig data = txin_scriptSig txin ∧
        misc_pubkeys data = ∅ ∧
        complete data =
          fst (VerifyScript_extractor (txin_scriptSig txin)
                 (scriptPubKey txout) STANDARD_SCRIPT_VERIFY_FLAGS
                 (MutableTransactionSignatureChecker tx nIn (nValue txout))
                 (set_scriptSig (txin_scriptSig txin) SignatureData_empty))
  end.
Proof.
  unfold DataFromTransaction.
  destruct (vin tx !! nIn) as [txin|]; [|done]. simpl.
  destruct (VerifyScript_extractor _ _ _ _ _) as [verified data1] eqn:Hverify.
  apply VerifyScript_extractor_signatures_only in Hverify as Hd1.
  assert (scriptSig data1 = txin_scriptSig txin ∧ misc_pubkeys data1 = ∅ ∧
          complete data1 = false) as (Hs1 & Hm1 & Hc1).
  { by rewrite Hd1. }
  destruct verified.
  { by intros data [= <-]. }
  destruct (DataFromTransaction_scripts _ _ _)
    as [[[[script_type solutions] next_script] stack] data2] eqn:Hscripts.
  apply DataFromTransaction_scripts_spec in Hscripts as [_ Hd2].
  assert (scriptSig data2 = txin_scriptSig txin ∧ misc_pubkeys data2 = ∅ ∧
          complete data2 = false) as (Hs2 & Hm2 & Hc2).
  { by destruct Hd2 as [->| ->]. }
  destruct (bool_decide (script_type = TX_MULTISIG) &&
            negb (bool_decide (stack = []))).
  - case_decide; [|done]. intros data [= <-].
    destruct (match_sigs _ _ _ _ _ _) as [last_success_key data3] eqn:Hrun.
    apply match_sigs_spec in Hrun as (_ & _ & _ & _ & Honly & _).
    simpl. by rewrite Honly.
  - by intros data [= <-].
Qed.

(** X16.  The matching loop gives each pubkey to at most one stack item:
    from cursor [c] it matches no more items than there are pubkeys from
    [c] on, and it leaves the cursor within the pubkeys when it started
    there. *)
Theorem match_sigs_bound checker code pubkeys stack cursor d :
  length (match_sigs_log checker code pubkeys stack cursor d)
    ≤ length pubkeys - cursor ∧
  (cursor ≤ length pubkeys →
   fst (match_sigs checker code pubkeys stack cursor d) ≤ length pubkeys).
Proof.
  revert cursor d. induction stack as [|sig stack IH]; intros cursor d.
  { simpl. split; [lia|done]. }
  cbn [match_sigs match_sigs_log]. rewrite match_pubkeys_advance.
  unfold advance_cursor.
  destruct (first_match checker sig code pubkeys cursor d)
    as [[i pubkey]|] eqn:Hfm.
  - apply first_match_Some in Hfm as (Hle & Hlook & _).
    apply lookup_lt_Some in Hlook.
    destruct (IH (S i)
                (set_signatures
                   (emplace (GetID (CPubKey_of_vector pubkey))
                      (CPubKey_of_vector pubkey, sig) (signatures d)) d))
      as [Hlen Hcur].
    simpl. split; [lia|]. intros _. apply Hcur. lia.
  - destruct (IH cursor d) as [Hlen Hcur]. simpl. by split.
Qed.

End MoreProperties.

Section CreatorProperties.
Context {W : Collaborators} {P : SigningPrimitives}.

Implicit Types (sigdata d : SignatureData) (provider : SigningProvider)
  (creator : BaseSignatureCreator) (keyid : uint160).

(** ** A creator that cannot sign *)

Lemma CreateSig_never creator sigdata provider pubkey scriptcode r sigdata' :
  (∀ keyid code, creator_CreateSig creator provider keyid code = None) →
  CreateSig creator sigdata provider pubkey scriptcode = (r, sigdata') →
  signatures sigdata' = signatures sigdata.
Proof.
  intros Hnone. unfold CreateSig. rewrite Hnone. intros Heq.
  repeat case_match; by simplify_eq.
Qed.

Lemma multisig_sign_never creator provider code required items ret sigdata
    ret' sigdata' :
  (∀ keyid code', creator_CreateSig creator provider keyid code' = None) →
  multisig_sign creator provider code required items ret sigdata
    = (ret', sigdata') →
  signatures sigdata' = signatures sigdata.
Proof.
  intros Hnone. revert ret sigdata. induction items as [|vch items IH];
    intros ret sigdata Heq; simpl in Heq.
  - by simplify_eq.
  - case_decide; [|by eauto].
    destruct (CreateSig _ _ _ _ _) as [[sig|] sigdata1] eqn:Hsig;
      apply (CreateSig_never _ _ _ _ _ _ _ Hnone) in Hsig;
      apply IH in Heq; congruence.
Qed.

Lemma SignStep_never provider creator script sigdata solved ret whichType
    sigdata' :
  (∀ keyid code, creator_CreateSig creator provider keyid code = None) →
  SignStep provider creator script sigdata
    = Some (solved, ret, whichType, sigdata') →
  signatures sigdata' = signatures sigdata.
Proof.
  intros Hnone. unfold SignStep. destruct (Solver script) as [t vSolutions].
  intros Heq. destruct t; simplify_option_eq; try done.
  - destruct (CreateSig _ _ _ _ _) as [[sig|] d1] eqn:Hsig;
      apply (CreateSig_never _ _ _ _ _ _ _ Hnone) in Hsig; by simplify_eq.
  - destruct (GetPubKey _ _ _) as [[pubkey|] d1] eqn:Hpk;
      apply GetPubKey_sigdata in Hpk as [->|[m ->]].
    + destruct (CreateSig _ _ _ _ _) as [[sig|] d2] eqn:Hsig;
        apply (CreateSig_never _ _ _ _ _ _ _ Hnone) in Hsig; by simplify_eq.
    + destruct (CreateSig _ _ _ _ _) as [[sig|] d2] eqn:Hsig;
        apply (CreateSig_never _ _ _ _ _ _ _ Hnone) in Hsig; by simplify_eq.
    + by simplify_eq.
    + by simplify_eq.
  - by case_match; simplify_eq.
  - destruct (multisig_sign _ _ _ _ _ _ _) as [ret1 d1] eqn:Hms.
    apply (multisig_sign_never _ _ _ _ _ _ _ _ _ Hnone) in Hms.
    by simplify_eq.
Qed.

Lemma ProduceSignature_never provider creator fromPubKey sigdata ret
    sigdata' :
  (∀ keyid code, creator_CreateSig creator provider keyid code = None) →
  ProduceSignature provider creator fromPubKey sigdata = Some (ret, sigdata') →
  signatures sigdata' = signatures sigdata.
Proof.
  intros Hnone. unfold ProduceSignature, ProduceSignature_solve.
  destruct (complete sigdata); [by intros; simplify_eq|].
  destruct (SignStep provider creator fromPubKey sigdata)
    as [[[[solved1 result1] whichType1] d1]|] eqn:H1; [|done].
  apply (SignStep_never _ _ _ _ _ _ _ _ Hnone) in H1. simpl.
  destruct (solved1 && bool_decide (whichType1 = TX_SCRIPTHASH)).
  - destruct (result1 !! 0) as [subscript|]; [|done]. simpl.
    destruct (SignStep provider creator subscript _)
      as [[[[solved2 result2] whichType2] d2]|] eqn:H2; [|done].
    apply (SignStep_never _ _ _ _ _ _ _ _ Hnone) in H2. simpl in *.
    intros; simplify_eq. simpl. congruence.
  - simpl. intros; simplify_eq. simpl. congruence.
Qed.

(** X17.  With a provider that hides its secrets, or with the provider
    that answers nothing, the transaction-bound creator makes no
    signature: [ProduceSignature] leaves [signatures] as it was. *)
Theorem ProduceSignature_without_secrets provider hide_origin txTo nIn
    amount sigHashType fromPubKey sigdata :
  let creator :=
    MutableTransactionSignatureCreator txTo nIn amount sigHashType in
  (∀ ret sigdata',
     ProduceSignature (HidingSigningProvider provider true hide_origin)
       creator fromPubKey sigdata = Some (ret, sigdata') →
     signatures sigdata' = signatures sigdata) ∧
  (∀ ret sigdata',
     ProduceSignature DUMMY_SIGNING_PROVIDER creator fromPubKey sigdata
       = Some (ret, sigdata') →
     signatures sigdata' = signatures sigdata).
Proof.
  split; intros ret sigdata'; by apply ProduceSignature_never.
Qed.

(** ** IsSolvable *)

(** X18.  The [assert(verified)] of [IsSolvable] never fails: the
    function returns what [ProduceSignature] with the dummy creator
    returns. *)
Theorem IsSolvable_ProduceSignature provider script :
  IsSolvable provider script =
  fst <$> ProduceSignature provider DUMMY_SIGNATURE_CREATOR script
            SignatureData_empty.
Proof.
  unfold IsSolvable, ProduceSignature. simpl.
  destruct (ProduceSignature_solve _ _ _ _) as [[[solved result] d1]|];
    simpl; [|done].
  destruct solved; simpl; [|done].
  by destruct (VerifyScript (PushAll result) script
                 STANDARD_SCRIPT_VERIFY_FLAGS DUMMY_CHECKER) eqn:Hverify.
Qed.

Lemma GetCScript_same_public p p' sigdata scriptid :
  same_public p p' →
  GetCScript p sigdata scriptid = GetCScript p' sigdata scriptid.
Proof. intros (Hs & _). unfold GetCScript. by rewrite Hs. Qed.

Lemma GetPubKey_same_public p p' sigdata address :
  same_public p p' →
  GetPubKey p sigdata address = GetPubKey p' sigdata address.
Proof. intros (_ & Hp & Ho). unfold GetPubKey. by rewrite Hp, Ho. Qed.

Lemma CreateSig_same_public creator p p' sigdata pubkey code :
  same_public p p' →
  (∀ keyid code', creator_CreateSig creator p keyid code'
                  = creator_CreateSig creator p' keyid code') →
  CreateSig creator sigdata p pubkey code
    = CreateSig creator sigdata p' pubkey code.
Proof. intros (_ & _ & Ho) Hc. unfold CreateSig. by rewrite Ho, Hc. Qed.

Lemma multisig_sign_same_public creator p p' code required items ret
    sigdata :
  same_public p p' →
  (∀ keyid code', creator_CreateSig creator p keyid code'
                  = creator_CreateSig creator p' keyid code') →
  multisig_sign creator p code required items ret sigdata
    = multisig_sign creator p' code required items ret sigdata.
Proof.
  intros Hsame Hc. revert ret sigdata.
  induction items as [|vch items IH]; intros ret sigdata; simpl; [done|].
  case_decide; [|done].
  rewrite (CreateSig_same_public creator p p') by done.
  by destruct (CreateSig _ _ _ _ _) as [[sig|] sigdata1].
Qed.

Lemma SignStep_same_public creator p p' script sigdata :
  same_public p p' →
  (∀ keyid code', creator_CreateSig creator p keyid code'
                  = creator_CreateSig creator p' keyid code') →
  SignStep p creator script sigdata = SignStep p' creator script sigdata.
Proof.
  intros Hsame Hc. unfold SignStep.
  destruct (Solver script) as [t vSolutions].
  destruct t; simpl; try done.
  - destruct (vSolutions !! 0) as [v0|]; simpl; [|done].
    by rewrite (CreateSig_same_public creator p p').
  - destruct (vSolutions !! 0) as [v0|]; simpl; [|done].
    rewrite (GetPubKey_same_public p p') by done.
    destruct (GetPubKey _ _ _) as [[pubkey|] sigdata1]; [|done].
    by rewrite (CreateSig_same_public creator p p').
  - destruct (vSolutions !! 0) as [v0|]; simpl; [|done].
    by rewrite (GetCScript_same_public p p').
  - destruct (head vSolutions) as [front|]; simpl; [|done].
    destruct (front !! 0) as [front0|]; simpl; [|done].
    by rewrite (multisig_sign_same_public creator p p').
Qed.

(** X19.  [IsSolvable] does not look at private keys: two providers that
    give the same scripts, public keys and key origins give the same
    answer. *)
Theorem IsSolvable_same_public p p' script :
  same_public p p' →
  IsSolvable p script = IsSolvable p' script.
Proof.
  intros Hsame. unfold IsSolvable, ProduceSignature, ProduceSignature_solve.
  simpl.
  rewrite (SignStep_same_public DUMMY_SIGNATURE_CREATOR p p') by done.
  destruct (SignStep p' DUMMY_SIGNATURE_CREATOR script SignatureData_empty)
    as [[[[solved result] whichType] d1]|]; simpl; [|done].
  destruct (solved && bool_decide (whichType = TX_SCRIPTHASH)); [|done].
  destruct (result !! 0) as [subscript|]; simpl; [|done].
  by rewrite (SignStep_same_public DUMMY_SIGNATURE_CREATOR p p').
Qed.

(** X20.  [IsSolvable] is false for a script the solver does not
    recognise and for a data carrier. *)
Theorem IsSolvable_nonstandard provider script :
  fst (Solver script) = TX_NONSTANDARD ∨ fst (Solver script) = TX_NULL_DATA →
  IsSolvable provider script = Some false.
Proof.
  intros Hkind.
  unfold IsSolvable, ProduceSignature, ProduceSignature_solve, SignStep.
  simpl. destruct (Solver script) as [t vSolutions]. simpl in Hkind.
  by destruct Hkind as [-> | ->].
Qed.

(** ** The dummy signature *)

Lemma insert_after_replicate {A} (n k : nat) (x y : A) (l : list A) :
  <[n + k := y]> (replicate n x ++ l) = replicate n x ++ <[k := y]> l.
Proof. induction n as [|n IH]; simpl; [done|]. by f_equal. Qed.

(** X21.  With both lengths at least 1 the dummy signature is a DER
    shaped vector of [m_r_len + m_s_len + 7] bytes: the sequence tag and
    length, an integer of [m_r_len] bytes that starts with [01], an
    integer of [m_s_len] bytes that starts with [01], and one byte of hash
    type. *)
Theorem DummySignatureCreator_layout (m_r_len m_s_len : nat) provider keyid
    scriptCode :
  1 ≤ m_r_len → 1 ≤ m_s_len →
  creator_CreateSig (DummySignatureCreator m_r_len m_s_len) provider keyid
    scriptCode
  = Some ([x30; uint8 (N.of_nat (m_r_len + m_s_len + 4));
           x02; uint8 (N.of_nat m_r_len); x01]
          ++ replicate (m_r_len - 1) x00
          ++ [x02; uint8 (N.of_nat m_s_len); x01]
          ++ replicate (m_s_len - 1) x00
          ++ [uint8 (N.lor SIGHASH_ALL SIGHASH_FORKID)]) ∧
  length (DummySignatureCreator_sig m_r_len m_s_len)
    = m_r_len + m_s_len + 7.
Proof.
  intros Hr Hs. split.
  - simpl. f_equal. unfold DummySignatureCreator_sig.
    destruct m_r_len as [|r]; [lia|]. destruct m_s_len as [|s]; [lia|].
    replace (S r + S s + 7) with (5 + (r + (3 + (s + 1)))) by lia.
    rewrite !replicate_add.
    replace (4 + S r) with (5 + (r + 0)) by lia.
    replace (5 + S r) with (5 + (r + 1)) by lia.
    replace (6 + S r + S s) with (5 + (r + (3 + (s + 0)))) by lia.
    replace (6 + S r) with (5 + (r + 2)) by lia.
    replace (S r - 1) with r by lia. replace (S s - 1) with s by lia.
    simpl. rewrite !insert_after_replicate.
    simpl. by rewrite insert_after_replicate.
  - unfold DummySignatureCreator_sig.
    by rewrite !length_insert, length_replicate.
Qed.

End CreatorProperties.

Section Caching.
Context {W : Collaborators}.

Implicit Types (sigdata d : SignatureData) (provider : SigningProvider)
  (creator : BaseSignatureCreator) (keyid : uint160).

(** ** The cache of public keys *)

(** X22.  A public key that [GetPubKey] has found is found again: asked
    once more on the resulting [sigdata], the same provider gives the same
    key and changes nothing. *)
Theorem GetPubKey_again provider sigdata address pubkey sigdata' :
  GetPubKey provider sigdata address = (Some pubkey, sigdata') →
  GetPubKey provider sigdata' address = (Some pubkey, sigdata').
Proof.
  unfold GetPubKey.
  destruct (signatures sigdata !! address) as [it|] eqn:Hsig.
  { intros [= <- <-]. by rewrite Hsig. }
  destruct (misc_pubkeys sigdata !! address) as [pk_it|] eqn:Hmisc.
  { intros [= <- <-]. by rewrite Hsig, Hmisc. }
  destruct (provider_GetPubKey provider address) as [pk|] eqn:Hpk; [|done].
  destruct (provider_GetKeyOrigin provider address) as [info|] eqn:Hinfo.
  - intros [= <- <-]. simpl. rewrite Hsig.
    by rewrite lookup_emplace, Hmisc, decide_True.
  - intros [= <- <-]. by rewrite Hsig, Hmisc.
Qed.

Lemma CreateSig_no_origin creator sigdata provider pubkey scriptcode r
    sigdata' :
  (∀ keyid, provider_GetKeyOrigin provider keyid = None) →
  CreateSig creator sigdata provider pubkey scriptcode = (r, sigdata') →
  misc_pubkeys sigdata' = misc_pubkeys sigdata.
Proof.
  intros Hnone. unfold CreateSig. rewrite Hnone. intros Heq.
  repeat case_match; by simplify_eq.
Qed.

Lemma GetPubKey_no_origin provider sigdata address r sigdata' :
  (∀ keyid, provider_GetKeyOrigin provider keyid = None) →
  GetPubKey provider sigdata address = (r, sigdata') →
  sigdata' = sigdata.
Proof.
  intros Hnone. unfold GetPubKey. rewrite Hnone. intros Heq.
  repeat case_match; by simplify_eq.
Qed.

Lemma multisig_sign_no_origin creator provider code required items ret
    sigdata ret' sigdata' :
  (∀ keyid, provider_GetKeyOrigin provider keyid = None) →
  multisig_sign creator provider code required items ret sigdata
    = (ret', sigdata') →
  misc_pubkeys sigdata' = misc_pubkeys sigdata.
Proof.
  intros Hnone. revert ret sigdata. induction items as [|vch items IH];
    intros ret sigdata Heq; simpl in Heq.
  - by simplify_eq.
  - case_decide; [|by eauto].
    destruct (CreateSig _ _ _ _ _) as [[sig|] sigdata1] eqn:Hsig;
      apply (CreateSig_no_origin _ _ _ _ _ _ _ Hnone) in Hsig;
      apply IH in Heq; congruence.
Qed.

Lemma SignStep_no_origin provider creator script sigdata solved ret
    whichType sigdata' :
  (∀ keyid, provider_GetKeyOrigin provider keyid = None) →
  SignStep provider creator script sigdata
    = Some (solved, ret, whichType, sigdata') →
  misc_pubkeys sigdata' = misc_pubkeys sigdata.
Proof.
  intros Hnone. unfold SignStep. destruct (Solver script) as [t vSolutions].
  intros Heq. destruct t; simplify_option_eq; try done.
  - destruct (CreateSig _ _ _ _ _) as [[sig|] d1] eqn:Hsig;
      apply (CreateSig_no_origin _ _ _ _ _ _ _ Hnone) in Hsig;
      by simplify_eq.
  - destruct (GetPubKey _ _ _) as [[pubkey|] d1] eqn:Hpk;
      apply (GetPubKey_no_origin _ _ _ _ _ Hnone) in Hpk; subst d1.
    + destruct (CreateSig _ _ _ _ _) as [[sig|] d2] eqn:Hsig;
        apply (CreateSig_no_origin _ _ _ _ _ _ _ Hnone) in Hsig;
        by simplify_eq.
    + by simplify_eq.
  - by case_match; simplify_eq.
  - destruct (multisig_sign _ _ _ _ _ _ _) as [ret1 d1] eqn:Hms.
    apply (multisig_sign_no_origin _ _ _ _ _ _ _ _ _ Hnone) in Hms.
    by simplify_eq.
Qed.

(** X23.  With a provider that hides key origins [ProduceSignature]
    caches no public key: [misc_pubkeys] stays as it was. *)
Theorem ProduceSignature_without_origins provider hide_secret creator
    fromPubKey sigdata ret sigdata' :
  ProduceSignature (HidingSigningProvider provider hide_secret true) creator
    fromPubKey sigdata = Some (ret, sigdata') →
  misc_pubkeys sigdata' = misc_pubkeys sigdata.
Proof.
  set (hiding := HidingSigningProvider provider hide_secret true).
  assert (∀ keyid, provider_GetKeyOrigin hiding keyid = None) as Hnone
    by done.
  unfold ProduceSignature, ProduceSignature_solve.
  destruct (complete sigdata); [by intros; simplify_eq|].
  destruct (SignStep hiding creator fromPubKey sigdata)
    as [[[[solved1 result1] whichType1] d1]|] eqn:H1; [|done].
  apply (SignStep_no_origin _ _ _ _ _ _ _ _ Hnone) in H1. simpl.
  destruct (solved1 && bool_decide (whichType1 = TX_SCRIPTHASH)).
  - destruct (result1 !! 0) as [subscript|]; [|done]. simpl.
    destruct (SignStep hiding creator subscript _)
      as [[[[solved2 result2] whichType2] d2]|] eqn:H2; [|done].
    apply (SignStep_no_origin _ _ _ _ _ _ _ _ Hnone) in H2. simpl in *.
    intros; simplify_eq. simpl. congruence.
  - simpl. intros; simplify_eq. simpl. congruence.
Qed.

End Caching.

(** * The rest of sign.cpp at work *)

#[local] Existing Instance ToySigning.primitives.

Lemma ProduceSignature_grows_witness :
  ProduceSignature (Toy.provider_of [x11] []) Toy.creator Toy.multisig_2of2
      Toy.fresh
    = Some (false, Toy.party_11) ∧
  grows Toy.fresh Toy.party_11.
Proof.
  assert (ProduceSignature (Toy.provider_of [x11] []) Toy.creator
            Toy.multisig_2of2 Toy.fresh = Some (false, Toy.party_11)) as Hrun.
  { apply Toy_produced_from_run. vm_compute. reflexivity. }
  split; [exact Hrun|].
  exact (ProduceSignature_grows (W := Toy.world) _ _ _ _ _ _ Hrun).
Defined.

Lemma CreateSig_again_witness :
  ∃ sigdata',
    CreateSig Toy.creator Toy.fresh (Toy.provider_of [x11] []) [x11]
        [x01; x11]
      = (Some [x11; xaa], sigdata') ∧
    CreateSig Toy.creator_bb sigdata' Toy.no_keys [x11] []
      = (Some [x11; xaa], sigdata').
Proof.
  destruct (CreateSig Toy.creator Toy.fresh (Toy.provider_of [x11] []) [x11]
              [x01; x11]) as [r sigdata'] eqn:Hrun.
  assert (r = Some [x11; xaa]) as ->.
  { change r with (fst (r, sigdata')). rewrite <- Hrun.
    vm_compute. reflexivity. }
  exists sigdata'. split; [reflexivity|].
  exact (CreateSig_again (W := Toy.world) _ _ _ _ _ _ _ Toy.creator_bb
           Toy.no_keys [] Hrun).
Defined.

Lemma ProduceSignature_again_witness :
  ProduceSignature (Toy.provider_of [x11; x13] []) Toy.creator
      Toy.multisig_2of3 Toy.fresh
    = Some (true, Toy.signed_2of3) ∧
  ProduceSignature Toy.no_keys Toy.creator_bb [x01; x11] Toy.signed_2of3
    = Some (true, Toy.signed_2of3).
Proof.
  assert (ProduceSignature (Toy.provider_of [x11; x13] []) Toy.creator
            Toy.multisig_2of3 Toy.fresh = Some (true, Toy.signed_2of3))
    as Hrun.
  { apply Toy_produced_from_run. vm_compute. reflexivity. }
  split; [exact Hrun|].
  exact (ProduceSignature_again (W := Toy.world) _ _ _ _ _ Toy.no_keys
           Toy.creator_bb [x01; x11] Hrun).
Defined.



Lemma ProduceSignature_nonstandard_witness :
  ProduceSignature Toy.no_keys Toy.creator [x09]
      (set_scriptSig [x51] Toy.fresh)
    = Some (false, set_scriptSig [] (set_scriptSig [x51] Toy.fresh)).
Proof.
  apply (ProduceSignature_nonstandard (W := Toy.world)).
  - reflexivity.
  - left. reflexivity.
Defined.

Lemma ProduceSignature_missing_redeem_script_witness :
  ProduceSignature Toy.no_keys Toy.creator Toy.p2sh_2of3 Toy.fresh
    = Some (false,
            set_missing_redeem_script (Some 63%N)
              (set_scriptSig [] Toy.fresh)).
Proof.
  exact (ProduceSignature_missing_redeem_script (W := Toy.world) Toy.no_keys
           Toy.creator Toy.p2sh_2of3 Toy.fresh [x3f] [] eq_refl eq_refl
           eq_refl).
Defined.

Lemma DataFromTransaction_sound_witness :
  ∃ data,
    DataFromTransaction (W := Toy.world) Toy.tx_partial 0 Toy.txout_3of3
      = Some data ∧
    accepted_by Toy.checker data.
Proof.
  destruct (DataFromTransaction (W := Toy.world) Toy.tx_partial 0
              Toy.txout_3of3) as [data|] eqn:Hrun.
  - exists data. split; [reflexivity|].
    exact (DataFromTransaction_sound (W := Toy.world) _ _ _ _ Hrun).
  - exfalso.
    assert (is_Some (DataFromTransaction (W := Toy.world) Toy.tx_partial 0
                       Toy.txout_3of3)) as [x Hx].
    { apply (bool_decide_unpack _). vm_compute. reflexivity. }
    congruence.
Defined.

Lemma DataFromTransaction_result_witness :
  ∃ data,
    DataFromTransaction (W := Toy.world) Toy.tx_partial 0 Toy.txout_3of3
      = Some data ∧
    scriptSig data = [x00; x02; x11; xaa; x02; x13; xaa] ∧
    misc_pubkeys data = ∅ ∧
    complete data = false.
Proof.
  destruct (DataFromTransaction (W := Toy.world) Toy.tx_partial 0
              Toy.txout_3of3) as [data|] eqn:Hrun.
  - exists data. split; [reflexivity|].
    pose proof (DataFromTransaction_result (W := Toy.world) Toy.tx_partial 0
                  Toy.txout_3of3) as Hresult.
    change (@vin Toy.world Toy.tx_partial !! 0)
      with (Some [x00; x02; x11; xaa; x02; x13; xaa]) in Hresult.
    destruct (Hresult data Hrun) as (Hscript & Hmisc & Hcomplete).
    split; [exact Hscript|]. split; [exact Hmisc|].
    rewrite Hcomplete. vm_compute. reflexivity.
  - exfalso.
    assert (is_Some (DataFromTransaction (W := Toy.world) Toy.tx_partial 0
                       Toy.txout_3of3)) as [x Hx].
    { apply (bool_decide_unpack _). vm_compute. reflexivity. }
    congruence.
Defined.

Lemma match_sigs_bound_witness :
  0 ≤ length [[x11]; [x12]; [x13]] ∧
  fst (match_sigs Toy.checker Toy.multisig_3of3 [[x11]; [x12]; [x13]]
         [[]; [x11; xaa]; [x13; xaa]; [x12; xaa]] 0 Toy.fresh) ≤ 3.
Proof.
  split; [simpl; lia|].
  apply (match_sigs_bound (W := Toy.world) Toy.checker Toy.multisig_3of3
           [[x11]; [x12]; [x13]] [[]; [x11; xaa]; [x13; xaa]; [x12; xaa]]
           0 Toy.fresh).
  simpl. lia.
Defined.

(** Pay to pubkey [11], the provider holding the key but hiding it. *)
Lemma ProduceSignature_without_secrets_witness :
  ∃ sigdata',
    ProduceSignature
      (HidingSigningProvider (Flat.provider ToySigning.flat_11) true false)
      ToySigning.tx_creator [x01; x11] Toy.fresh
      = Some (false, sigdata') ∧
    signatures sigdata' = signatures Toy.fresh.
Proof.
  eexists. split.
  - apply Toy_produced_from_run. vm_compute. reflexivity.
  - eapply (proj1 (ProduceSignature_without_secrets (W := Toy.world)
                     (P := ToySigning.primitives)
                     (Flat.provider ToySigning.flat_11) false Toy.tx_partial
                     0 0%Z 65%N [x01; x11] Toy.fresh)).
    apply Toy_produced_from_run. vm_compute. reflexivity.
Defined.

Lemma IsSolvable_same_public_witness :
  same_public
    (HidingSigningProvider (Flat.provider ToySigning.flat_11) true false)
    (Flat.provider ToySigning.flat_11) ∧
  IsSolvable
    (HidingSigningProvider (Flat.provider ToySigning.flat_11) true false)
    [x02; x11]
  = IsSolvable (Flat.provider ToySigning.flat_11) [x02; x11].
Proof.
  assert (same_public
            (HidingSigningProvider (Flat.provider ToySigning.flat_11) true
               false)
            (Flat.provider ToySigning.flat_11)) as Hsame.
  { repeat split. }
  split; [exact Hsame|].
  exact (IsSolvable_same_public (W := Toy.world) _ _ [x02; x11] Hsame).
Defined.

Lemma IsSolvable_nonstandard_witness :
  IsSolvable (Flat.provider ToySigning.flat_11) [x09] = Some false.
Proof.
  apply (IsSolvable_nonstandard (W := Toy.world)). left. reflexivity.
Defined.

(** The two dummy creators of the file: 71 and 72 bytes. *)
Lemma DummySignatureCreator_layout_witness :
  length (DummySignatureCreator_sig 32 32) = 71 ∧
  length (DummySignatureCreator_sig 33 32) = 72.
Proof.
  split.
  - apply (DummySignatureCreator_layout (W := Toy.world) 32 32 Toy.no_keys
             0%N []); lia.
  - apply (DummySignatureCreator_layout (W := Toy.world) 33 32 Toy.no_keys
             0%N []); lia.
Defined.

Lemma GetPubKey_again_witness :
  ∃ sigdata',
    GetPubKey (Flat.provider ToySigning.flat_11) Toy.fresh 17%N
      = (Some [x11], sigdata') ∧
    GetPubKey (Flat.provider ToySigning.flat_11) sigdata' 17%N
      = (Some [x11], sigdata').
Proof.
  destruct (GetPubKey (Flat.provider ToySigning.flat_11) Toy.fresh 17%N)
    as [r sigdata'] eqn:Hrun.
  assert (r = Some [x11]) as ->.
  { change r with (fst (r, sigdata')). rewrite <- Hrun.
    vm_compute. reflexivity. }
  exists sigdata'. split; [reflexivity|].
  exact (GetPubKey_again (W := Toy.world) _ _ _ _ _ Hrun).
Defined.

Lemma ProduceSignature_without_origins_witness :
  ∃ sigdata',
    ProduceSignature
      (HidingSigningProvider (Flat.provider ToySigning.flat_11) false true)
      ToySigning.tx_creator [x02; x11] Toy.fresh
      = Some (false, sigdata') ∧
    misc_pubkeys sigdata' = misc_pubkeys Toy.fresh.
Proof.
  eexists. split.
  - apply Toy_produced_from_run. vm_compute. reflexivity.
  - eapply (ProduceSignature_without_origins (W := Toy.world)
              (Flat.provider ToySigning.flat_11) false).
    apply Toy_produced_from_run. vm_compute. reflexivity.
Defined.
